(** * Order-state synchronisation service (otc/js/services/WebSocket.js)

    A shallow embedding of the [WebSocketService] class: the order cache
    (a JavaScript [Map] from order id to order object), the subscriber
    registry (a [Map] from event name to a [Set] of callbacks), the
    reconnect policy and the handlers of the ledger's push events.

    JavaScript objects are shared by reference.  The order objects the
    cache holds are therefore kept in an explicit object store ([heap]) and
    the cache, the arrays returned by [getOrders] and the payloads handed to
    subscribers hold references ([loc]) into that store.

    Conventions of the embedding:
    - integers of the ledger ([BigNumber] ids, amounts, timestamps) and
      JavaScript numbers are [Z]; [toNumber()] is the identity on them;
    - [async] methods run to completion without interleaving;
    - exceptions are explicit: a computation finishes with [Normal v] or
      with [Throw e], and [try_catch] is the [try { } catch (error) { }]
      statement;
    - what the service does to the outside (calls of subscriber callbacks,
      calls of [this.debug], timers, listener registrations) is recorded in
      a trace of [Effect]s; a [Notify] entry marks each call of
      [notifySubscribers], that is each publication. *)

From stdpp Require Import gmap strings list fin_maps.
From Stdlib Require Import ZArith Lia Sorted Permutation.

(** ** Data model *)

Definition Address := string.
Definition Error := string.

(** [ethers.constants.AddressZero] *)
Definition AddressZero : Address := "0x0000000000000000000000000000000000000000".

(** The struct returned by [contract.orders(i)]. *)
Module Order.
Record t := mk {
  maker : Address;
  taker : Address;
  sellToken : Address;
  sellAmount : Z;
  buyToken : Address;
  buyAmount : Z;
  timestamp : Z;
  status : Z;
  orderCreationFee : Z;
  tries : Z
}.
End Order.

(** The [orderData] object literal stored in the cache.  The object built by
    the OrderCreated handler has no [tries] property. *)
Module OrderData.
Record t := mk {
  id : Z;
  maker : Address;
  taker : Address;
  sellToken : Address;
  sellAmount : Z;
  buyToken : Address;
  buyAmount : Z;
  timestamp : Z;
  orderCreationFee : Z;
  status : string;
  tries : option Z
}.

(** [order.status = s] *)
Definition set_status (s : string) (o : t) : t :=
  mk (id o) (maker o) (taker o) (sellToken o) (sellAmount o) (buyToken o)
     (buyAmount o) (timestamp o) (orderCreationFee o) s (tries o).
End OrderData.

(** References to order objects, and the object store. *)
Abbreviation loc := nat (only parsing).
Abbreviation Heap := (list OrderData.t) (only parsing).

(** What a subscriber callback receives: an order object, the object built
  by [Object.fromEntries(this.orderCache)], or the array of [getOrders]. *)
Inductive Payload :=
| POrder (order : loc)
| PSnapshot (entries : gmap Z loc)
| POrders (orders : list loc).

(** A subscriber callback.  [cb_id] is the identity of the function object
  (what [Set] membership compares); [cb_body] tells, from the object store
  and the payload, whether the call throws.  Callbacks are consumers: they
  do not call back into the service. *)
Record Callback := {
  cb_id : nat;
  cb_body : Heap -> Payload -> option Error
}.

Inductive Provider := WebSocketProvider (wsUrl : string).

(** The fields of [this]. *)
Record WebSocketService := {
  provider : option Provider;
  subscribers : gmap string (list Callback);
  reconnectAttempts : Z;
  maxReconnectAttempts : Z;
  reconnectDelay : Z;
  orderCache : list (Z * loc);
  isInitialized : bool;
  contractAddress : option Address;
  contractABI : option string
}.

Record World := {
  this : WebSocketService;
  heap : Heap
}.

(** Arguments of [this.debug] calls; [LOther] stands for an argument whose
  value is not tracked. *)
Inductive LogArg :=
| LStr (s : string)
| LNum (n : Z)
| LErr (e : Error)
| LData (d : Payload)
| LOther.

Inductive Effect :=
| Debug (message : string) (args : list LogArg)
| Warn (message : string)
| Notify (eventName : string) (data : Payload)
| Call (cb : nat) (data : Payload)
| Listen (target eventName : string)
| SetTimeout (delay : Z).

(** ** The JavaScript [Map] of the order cache: insertion ordered *)

Module JsMap.
Section Ops.
Context {V : Type}.

Fixpoint get (k : Z) (m : list (Z * V)) : option V :=
  match m with
  | [] => None
  | (k', v) :: rest => if bool_decide (k' = k) then Some v else get k rest
  end.

(** [set] overwrites in place when the key is there, appends otherwise. *)
Fixpoint set (k : Z) (v : V) (m : list (Z * V)) : list (Z * V) :=
  match m with
  | [] => [(k, v)]
  | (k', v') :: rest =>
      if bool_decide (k' = k) then (k, v) :: rest else (k', v') :: set k v rest
  end.

Definition delete (k : Z) (m : list (Z * V)) : list (Z * V) :=
  List.filter (fun e => negb (bool_decide (e.1 = k))) m.

Definition clear (m : list (Z * V)) : list (Z * V) := [].

Definition values (m : list (Z * V)) : list V := m.*2.

(** [Object.fromEntries(m)]: later entries win. *)
Definition fromEntries (m : list (Z * V)) : gmap Z V :=
  foldl (fun acc e => <[e.1 := e.2]> acc) ∅ m.
End Ops.
End JsMap.

(** ** Computations: state, exceptions and a trace *)

Inductive Completion (A : Type) :=
| Normal (value : A)
| Throw (error : Error)
| OutOfFuel.
Arguments Normal {A} value.
Arguments Throw {A} error.
Arguments OutOfFuel {A}.

Definition M (A : Type) : Type := World -> Completion A * World * list Effect.

Definition ret {A} (a : A) : M A := fun w => (Normal a, w, []).

Definition bind {A B} (m : M A) (k : A -> M B) : M B :=
  fun w =>
    match m w with
    | (Normal a, w1, t1) =>
        match k a w1 with (r, w2, t2) => (r, w2, t1 ++ t2) end
    | (Throw e, w1, t1) => (Throw e, w1, t1)
    | (OutOfFuel, w1, t1) => (OutOfFuel, w1, t1)
    end.

Definition throw {A} (e : Error) : M A := fun w => (Throw e, w, []).

(** [try { body } catch (error) { handler }] *)
Definition try_catch {A} (body : M A) (handler : Error -> M A) : M A :=
  fun w =>
    match body w with
    | (Throw e, w1, t1) =>
        match handler e w1 with (r, w2, t2) => (r, w2, t1 ++ t2) end
    | r => r
    end.

Definition emit (e : Effect) : M unit := fun w => (Normal tt, w, [e]).
Definition gets {A} (f : World -> A) : M A := fun w => (Normal (f w), w, []).
Definition modify (f : World -> World) : M unit := fun w => (Normal tt, f w, []).

(** The result of a call into the ledger client, lifted. *)
Definition await {A} (r : Error + A) : M A :=
  match r with inl e => throw e | inr a => ret a end.

#[global] Instance M_ret : MRet M := @ret.
#[global] Instance M_bind : MBind M := fun A B k m => bind m k.

Fixpoint forEach {A} (l : list A) (body : A -> M unit) : M unit :=
  match l with
  | [] => ret tt
  | x :: rest => body x ;; forEach rest body
  end.

Definition debug (message : string) (args : list LogArg) : M unit :=
  emit (Debug message args).

(** Field updates of [this]. *)
Definition with_this (f : WebSocketService -> WebSocketService) (w : World) : World :=
  {| this := f (this w); heap := heap w |}.

Definition set_provider (p : option Provider) (s : WebSocketService) :=
  {| provider := p; subscribers := subscribers s;
     reconnectAttempts := reconnectAttempts s;
     maxReconnectAttempts := maxReconnectAttempts s;
     reconnectDelay := reconnectDelay s; orderCache := orderCache s;
     isInitialized := isInitialized s; contractAddress := contractAddress s;
     contractABI := contractABI s |}.

Definition set_subscribers (x : gmap string (list Callback)) (s : WebSocketService) :=
  {| provider := provider s; subscribers := x;
     reconnectAttempts := reconnectAttempts s;
     maxReconnectAttempts := maxReconnectAttempts s;
     reconnectDelay := reconnectDelay s; orderCache := orderCache s;
     isInitialized := isInitialized s; contractAddress := contractAddress s;
     contractABI := contractABI s |}.

Definition set_reconnectAttempts (n : Z) (s : WebSocketService) :=
  {| provider := provider s; subscribers := subscribers s;
     reconnectAttempts := n;
     maxReconnectAttempts := maxReconnectAttempts s;
     reconnectDelay := reconnectDelay s; orderCache := orderCache s;
     isInitialized := isInitialized s; contractAddress := contractAddress s;
     contractABI := contractABI s |}.

Definition set_orderCache (c : list (Z * loc)) (s : WebSocketService) :=
  {| provider := provider s; subscribers := subscribers s;
     reconnectAttempts := reconnectAttempts s;
     maxReconnectAttempts := maxReconnectAttempts s;
     reconnectDelay := reconnectDelay s; orderCache := c;
     isInitialized := isInitialized s; contractAddress := contractAddress s;
     contractABI := contractABI s |}.

Definition set_isInitialized (b : bool) (s : WebSocketService) :=
  {| provider := provider s; subscribers := subscribers s;
     reconnectAttempts := reconnectAttempts s;
     maxReconnectAttempts := maxReconnectAttempts s;
     reconnectDelay := reconnectDelay s; orderCache := orderCache s;
     isInitialized := b; contractAddress := contractAddress s;
     contractABI := contractABI s |}.

(** [new] of an object literal: the object goes to a fresh cell. *)
Definition alloc (o : OrderData.t) : M loc :=
  fun w => (Normal (length (heap w)), {| this := this w; heap := heap w ++ [o] |}, []).

(** A property write [ref.status = s] on an order object. *)
Definition write_status (l : loc) (s : string) : M unit :=
  modify (fun w => {| this := this w; heap := alter (OrderData.set_status s) l (heap w) |}).

(** ** The ledger client and the host environment

    [ethers], [config.js] and the clock are outside the sources; the
    service's calls into them are answered by these records.  A call that
    rejects or throws answers [inl error]. *)

Record Contract := {
  address : string;
  nextOrderId : Error + Z;
  orders : Z -> Error + Order.t;
  filters_OrderCreated : Error + unit
}.

Record NetworkConfig := {
  wsUrl : string;
  config_contractAddress : Address;
  config_contractABI : string
}.

Record Env := {
  getNetworkConfig : Error + NetworkConfig;
  WebSocketProvider_new : string -> Error + Provider;
  provider_ready : Provider -> Error + unit;
  Contract_new : option Address -> option string -> option Provider -> Error + Contract;
  Date_now : Z
}.

(** ** The service *)

Definition constructor : WebSocketService :=
  {| provider := None;
     subscribers := ∅;
     reconnectAttempts := 0;
     maxReconnectAttempts := 5;
     reconnectDelay := 1000;
     orderCache := [];
     isInitialized := false;
     contractAddress := None;
     contractABI := None |}.

(** *** Subscriber registry *)

(** [Set.prototype.add] and [delete], by identity of the function. *)
Definition Set_has (cb : Callback) (s : list Callback) : bool :=
  existsb (fun c => Nat.eqb (cb_id c) (cb_id cb)) s.

Definition Set_add (cb : Callback) (s : list Callback) : list Callback :=
  if Set_has cb s then s else s ++ [cb].

Definition Set_delete (cb : Callback) (s : list Callback) : list Callback :=
  List.filter (fun c => negb (Nat.eqb (cb_id c) (cb_id cb))) s.

Definition subscribe (eventName : string) (callback : Callback) : M unit :=
  modify (with_this (fun s =>
    let subs :=
      match subscribers s !! eventName with
      | None => <[eventName := []]> (subscribers s)
      | Some _ => subscribers s
      end in
    set_subscribers (alter (Set_add callback) eventName subs) s)).

Definition unsubscribe (eventName : string) (callback : Callback) : M unit :=
  modify (with_this (fun s =>
    match subscribers s !! eventName with
    | Some _ => set_subscribers (alter (Set_delete callback) eventName (subscribers s)) s
    | None => s
    end)).

(** [callback(data)] *)
Definition call (callback : Callback) (data : Payload) : M unit :=
  emit (Call (cb_id callback) data) ;;
  h ← gets heap;
  match cb_body callback h data with
  | Some error => throw error
  | None => ret tt
  end.

(** [notifySubscribers]; the [Notify] effect records the publication. *)
Definition notifySubscribers (eventName : string) (data : Payload) : M unit :=
  emit (Notify eventName data) ;;
  debug "Notifying subscribers for event:" [LStr eventName] ;;
  found ← gets (fun w => subscribers (this w) !! eventName);
  match found with
  | Some callbacks =>
      debug "Found" [LNum (Z.of_nat (length callbacks)); LStr "subscribers"] ;;
      forEach callbacks (fun callback =>
        try_catch
          (debug "Calling subscriber callback" [] ;;
           call callback data ;;
           debug "Subscriber callback completed" [])
          (fun error => debug "Error in subscriber callback:" [LErr error]))
  | None => debug "No subscribers found for event:" [LStr eventName]
  end.

(** *** Cache access *)

Definition cache (w : World) : list (Z * loc) := orderCache (this w).

Definition cache_set (orderId : Z) (order : loc) : M unit :=
  modify (with_this (fun s => set_orderCache (JsMap.set orderId order (orderCache s)) s)).

Definition cache_delete (orderId : Z) : M unit :=
  modify (with_this (fun s => set_orderCache (JsMap.delete orderId (orderCache s)) s)).

Definition cache_clear : M unit :=
  modify (with_this (fun s => set_orderCache (JsMap.clear (orderCache s)) s)).

Definition updateOrderCache (orderId : Z) (orderData : loc) : M unit :=
  cache_set orderId orderData.

(** [order.status] read through a reference. *)
Definition status_at (h : Heap) (order : loc) : option string :=
  OrderData.status <$> h !! order.

(** Truthiness of the [filterStatus] argument ([null] by default). *)
Definition truthy (filterStatus : option string) : bool :=
  match filterStatus with
  | None => false
  | Some s => negb (String.eqb s "")
  end.

Definition getOrders (filterStatus : option string) : M (list loc) :=
  try_catch
    (debug "Getting orders with filter:"
       [match filterStatus with Some s => LStr s | None => LOther end] ;;
     all ← gets (fun w => JsMap.values (cache w));
     if truthy filterStatus then
       h ← gets heap;
       ret (List.filter
              (fun order => bool_decide (status_at h order = filterStatus)) all)
     else ret all)
    (fun error => debug "Error getting orders:" [LErr error] ;; ret []).

Definition removeOrder (orderId : Z) : M unit :=
  cache_delete orderId.

(** The argument of [removeOrders]: an array of ids, or anything else. *)
Inductive IdsArg :=
| NotAnArray
| IdArray (orderIds : list Z).

Definition removeOrders (orderIds : IdsArg) : M unit :=
  match orderIds with
  | NotAnArray => emit (Warn "[WebSocket] removeOrders called with non-array:")
  | IdArray ids =>
      debug "Removing orders:" [LOther] ;;
      forEach ids (fun orderId => cache_delete orderId) ;;
      remaining ← getOrders None;
      notifySubscribers "ordersUpdated" (POrders remaining)
  end.

(** *** Handlers of the ledger's push events *)

Definition onOrderCreated
    (orderId : Z) (maker taker sellToken : Address) (sellAmount : Z)
    (buyToken : Address) (buyAmount timestamp fee : Z) : M unit :=
  try_catch
    (debug "OrderCreated event received (raw):" [LOther] ;;
     orderData ← alloc
       {| OrderData.id := orderId;
          OrderData.maker := maker;
          OrderData.taker := taker;
          OrderData.sellToken := sellToken;
          OrderData.sellAmount := sellAmount;
          OrderData.buyToken := buyToken;
          OrderData.buyAmount := buyAmount;
          OrderData.timestamp := timestamp;
          OrderData.orderCreationFee := fee;
          OrderData.status := "Active";
          OrderData.tries := None |};
     debug "Processed OrderCreated data:" [LData (POrder orderData)] ;;
     cache_set orderId orderData ;;
     debug "Cache updated:" [LOther] ;;
     n ← gets (fun w =>
       match subscribers (this w) !! "OrderCreated" with
       | Some s => Z.of_nat (length s)
       | None => 0%Z
       end);
     debug "Current subscribers for OrderCreated:" [LNum n] ;;
     notifySubscribers "OrderCreated" (POrder orderData))
    (fun error => debug "Error in OrderCreated handler:" [LErr error]).

Definition onOrderFilled (orderId : Z) : M unit :=
  found ← gets (fun w => JsMap.get orderId (cache w));
  match found with
  | Some order =>
      write_status order "Filled" ;;
      cache_set orderId order ;;
      debug "Cache updated for filled order:" [LData (POrder order)] ;;
      notifySubscribers "OrderFilled" (POrder order)
  | None => ret tt
  end.

Definition onOrderCanceled (orderId : Z) : M unit :=
  found ← gets (fun w => JsMap.get orderId (cache w));
  match found with
  | Some order =>
      write_status order "Canceled" ;;
      updateOrderCache orderId order ;;
      notifySubscribers "OrderCanceled" (POrder order)
  | None => ret tt
  end.

(** *** Full resync *)

(** [['Active', 'Filled', 'Canceled'][order.status]] *)
Definition statusNames : list string := ["Active"; "Filled"; "Canceled"].

Definition statusName (status : Z) : string :=
  if bool_decide (0 <= status)%Z
  then default "undefined" (statusNames !! Z.to_nat status)
  else "undefined".

Definition mkOrderData (i : Z) (order : Order.t) : OrderData.t :=
  {| OrderData.id := i;
     OrderData.maker := Order.maker order;
     OrderData.taker := Order.taker order;
     OrderData.sellToken := Order.sellToken order;
     OrderData.sellAmount := Order.sellAmount order;
     OrderData.buyToken := Order.buyToken order;
     OrderData.buyAmount := Order.buyAmount order;
     OrderData.timestamp := Order.timestamp order;
     OrderData.status := statusName (Order.status order);
     OrderData.orderCreationFee := Order.orderCreationFee order;
     OrderData.tries := Some (Order.tries order) |}.

(** The guard of the loop body: non-zero maker and status [0] (Active). *)
Definition isOpen (order : Order.t) : bool :=
  negb (String.eqb (Order.maker order) AddressZero) && Z.eqb (Order.status order) 0.

(** One iteration of the [for] loop. *)
Definition syncOne (contract : Contract) (i : Z) : M unit :=
  try_catch
    (order ← await (orders contract i);
     if isOpen order then
       orderData ← alloc (mkOrderData i order);
       cache_set i orderData ;;
       debug "Added order to cache:" [LData (POrder orderData)]
     else ret tt)
    (fun error => debug "Failed to read order" [LNum i; LErr error]).

Definition snapshot (w : World) : Payload :=
  PSnapshot (JsMap.fromEntries (cache w)).

(** [syncAllOrders(contract)].  The argument is [None] when the caller
    passes [undefined]; reading [contract.address] then throws. *)
Definition syncAllOrders (contract : option Contract) : M unit :=
  try_catch
    (c ← match contract with
         | Some c => ret c
         | None => throw "TypeError: Cannot read properties of undefined (reading 'address')"
         end;
     debug "Starting order sync with contract:" [LStr (address c)] ;;
     bound ← try_catch
       (n ← await (nextOrderId c);
        debug "nextOrderId result:" [LNum n] ;;
        ret n)
       (fun error =>
          debug "nextOrderId call failed, using default value:" [LErr error] ;;
          ret 0%Z);
     cache_clear ;;
     forEach (seqZ 0 bound) (syncOne c) ;;
     s ← gets snapshot;
     debug "Order sync complete:" [LData s] ;;
     s ← gets snapshot;
     notifySubscribers "orderSyncComplete" s)
    (fun error =>
       debug "Order sync failed:" [LErr error] ;;
       cache_clear ;;
       notifySubscribers "orderSyncComplete" (PSnapshot ∅)).

(** *** Connection life cycle *)

(** [setupEventListeners(contract)]: the listeners it registers are the
    handlers above and [onDisconnect] below. *)
Definition setupEventListeners (contract : Contract) : M unit :=
  try_catch
    (debug "Setting up event listeners for contract:" [LStr (address contract)] ;;
     p ← gets (fun w => provider (this w));
     match p with
     | None => throw "TypeError: Cannot read properties of null (reading 'on')"
     | Some _ =>
         emit (Listen "provider" "connect") ;;
         emit (Listen "provider" "disconnect") ;;
         await (filters_OrderCreated contract) ;;
         debug "Created filter:" [LOther] ;;
         emit (Listen "provider" "block") ;;
         emit (Listen "contract" "OrderCreated") ;;
         emit (Listen "contract" "OrderFilled") ;;
         emit (Listen "contract" "OrderCanceled") ;;
         debug "Event listeners setup complete" []
     end)
    (fun error => debug "Error setting up event listeners:" [LErr error]).

(** [Math.pow] on the integers [reconnect] passes: a non-negative exponent. *)
Definition Math_pow (b e : Z) : Z := (b ^ e)%Z.

(** [reconnect()], with the [initialize] it ends in as a parameter. *)
Definition reconnect_with (initialize : M bool) : M bool :=
  s ← gets this;
  if bool_decide (reconnectAttempts s >= maxReconnectAttempts s)%Z then
    debug "Max reconnection attempts reached" [] ;;
    ret false
  else
    modify (with_this (fun s => set_reconnectAttempts (reconnectAttempts s + 1) s)) ;;
    s ← gets this;
    let delay := (reconnectDelay s * Math_pow 2 (reconnectAttempts s - 1))%Z in
    debug "Reconnecting in"
      [LNum delay; LNum (reconnectAttempts s); LNum (maxReconnectAttempts s)] ;;
    emit (SetTimeout delay) ;;
    initialize.

(** The [try] block of [initialize()], in the environment of one attempt. *)
Definition initialize_body (env : Env) : M bool :=
  done ← gets (fun w => isInitialized (this w));
  if (done : bool) then ret true
  else
    debug "Starting initialization..." [] ;;
    config ← await (getNetworkConfig env);
    debug "Network config loaded, connecting to:" [LStr (wsUrl config)] ;;
    p ← await (WebSocketProvider_new env (wsUrl config));
    modify (with_this (set_provider (Some p))) ;;
    await (provider_ready env p) ;;
    debug "Provider ready" [] ;;
    p' ← gets (fun w => provider (this w));
    contract ← await (Contract_new env
                        (Some (config_contractAddress config))
                        (Some (config_contractABI config)) p');
    debug "Contract initialized, starting order sync..." [] ;;
    syncAllOrders (Some contract) ;;
    debug "Setting up event listeners..." [] ;;
    setupEventListeners contract ;;
    modify (with_this (set_isInitialized true)) ;;
    debug "Initialization complete" [] ;;
    modify (with_this (set_reconnectAttempts 0)) ;;
    ret true.

(** [initialize()] and the [reconnect()] of its [catch] call each other; the
    recursion is on [fuel], and [envs k] is the environment the [k]-th
    attempt from here meets. *)
Fixpoint initialize_fuel (fuel : nat) (envs : nat -> Env) : M bool :=
  match fuel with
  | O => fun w => (OutOfFuel, w, [])
  | S fuel' =>
      try_catch
        (initialize_body (envs O))
        (fun error =>
           debug "Initialization failed:" [LErr error] ;;
           reconnect_with (initialize_fuel fuel' (fun k => envs (S k))))
  end.

(** Reconnect attempts left before [reconnect] gives up. *)
Definition attemptsLeft (w : World) : nat :=
  Z.to_nat (maxReconnectAttempts (this w) - reconnectAttempts (this w)).

Definition initialize (envs : nat -> Env) : M bool :=
  fun w => initialize_fuel (S (attemptsLeft w)) envs w.

Definition reconnect (envs : nat -> Env) : M bool :=
  fun w => reconnect_with (initialize_fuel (attemptsLeft w) envs) w.

(** The provider's "disconnect" listener. *)
Definition onDisconnect (envs : nat -> Env) (error : Error) : M unit :=
  debug "Provider disconnected:" [LErr error] ;;
  reconnect envs ;;
  ret tt.

(** *** Cleanup eligibility *)

Record Eligibility := {
  isEligible : bool;
  order : option Order.t;
  error : option Error
}.

(** [14 * 24 * 60 * 60] *)
Definition totalExpiry : Z := 14 * 24 * 60 * 60.

Definition checkCleanupEligibility (env : Env) (orderId : Z) : M Eligibility :=
  try_catch
    (s ← gets this;
     contract ← await (Contract_new env (contractAddress s) (contractABI s) (provider s));
     order ← await (orders contract orderId);
     let currentTime := (Date_now env `div` 1000)%Z in
     let orderTime := Order.timestamp order in
     debug "Cleanup eligibility check:"
       [LNum orderId; LNum orderTime; LNum currentTime;
        LNum (currentTime - orderTime); LNum totalExpiry] ;;
     ret {| isEligible := bool_decide (currentTime - orderTime > totalExpiry)%Z;
            order := Some order;
            error := None |})
    (fun err =>
       debug "Error checking cleanup eligibility:" [LErr err] ;;
       ret {| isEligible := false; order := None; error := Some err |}).

(** *** Forwarding of raw contract events *)

(** [listenToContractEvents(contract, eventName)]: the guard and the
    registration.  The listener it registers is [forwardEvent]. *)
Definition listenToContractEvents (eventName : string) : M unit :=
  p ← gets (fun w => provider (this w));
  match p with
  | None => throw "WebSocket not initialized"
  | Some _ => emit (Listen "contract" eventName)
  end.

(** The listener registered by [listenToContractEvents]: it hands the event
    object to every subscriber of the event name, with no [try] around the
    calls. *)
Definition forwardEvent (eventName : string) (event : Payload) : M unit :=
  found ← gets (fun w => subscribers (this w) !! eventName);
  match found with
  | Some callbacks => forEach callbacks (fun callback => call callback event)
  | None => ret tt
  end.

(** *** Contract state check *)

(** What [checkContractState] asks of the host: the wallet's accounts
    ([window.ethereum.request]) and the code at an address
    ([contract.provider.getCode]). *)
Record Host := {
  eth_accounts : Error + list string;
  getCode : string -> Error + string
}.

(** [checkContractState(contract)]; [None] is an [undefined] argument. *)
Definition checkContractState (host : Host) (contract : option Contract) : M bool :=
  try_catch
    (accounts ← await (eth_accounts host);
     let currentAccount := head accounts in
     c ← match contract with
         | Some c => ret c
         | None => throw "TypeError: Cannot read properties of undefined (reading 'address')"
         end;
     code ← await (getCode host (address c));
     debug "Contract state check:"
       [LStr (address c);
        match currentAccount with Some a => LStr a | None => LOther end;
        LStr (if String.eqb code "0x" then "false" else "true")] ;;
     ret true)
    (fun error =>
       debug "Contract state check failed:" [LErr error] ;;
       ret false).

(** ** Vocabulary of the statements: traces, worlds and expected results *)

Definition is_call (e : Effect) : bool :=
  match e with Call _ _ => true | _ => false end.

Definition is_notify (e : Effect) : bool :=
  match e with Notify _ _ => true | _ => false end.

Definition is_timeout (e : Effect) : bool :=
  match e with SetTimeout _ => true | _ => false end.

(** The callback invocations, the publications and the timers of a trace. *)
Definition calls (t : list Effect) : list Effect := List.filter is_call t.
Definition notifications (t : list Effect) : list Effect := List.filter is_notify t.
Definition timeouts (t : list Effect) : list Effect := List.filter is_timeout t.

(** The callbacks registered for an event name. *)
Definition subscribersOf (w : World) (eventName : string) : list Callback :=
  default [] (subscribers (this w) !! eventName).

(** The order object the cache holds for an id. *)
Definition recordOf (w : World) (orderId : Z) : option OrderData.t :=
  l ← JsMap.get orderId (cache w); heap w !! l.

Definition statusOf (w : World) (orderId : Z) : option string :=
  OrderData.status <$> recordOf w orderId.

(** The order objects an array of references shows. *)
Definition view (h : Heap) (refs : list loc) : list (option OrderData.t) :=
  (fun l => h !! l) <$> refs.

(** Every reference of the cache points into the object store. *)
Definition wf (w : World) : Prop :=
  Forall (fun e => e.2 < length (heap w)) (cache w).

(** *** The trace of a publication *)

(** What one subscriber contributes to the trace of a publication. *)
Definition callbackTrace (h : Heap) (data : Payload) (callback : Callback) : list Effect :=
  [Debug "Calling subscriber callback" []; Call (cb_id callback) data] ++
  match cb_body callback h data with
  | Some error => [Debug "Error in subscriber callback:" [LErr error]]
  | None => [Debug "Subscriber callback completed" []]
  end.

Definition guarded_call (data : Payload) (callback : Callback) : M unit :=
  try_catch
    (debug "Calling subscriber callback" [] ;;
     call callback data ;;
     debug "Subscriber callback completed" [])
    (fun error => debug "Error in subscriber callback:" [LErr error]).

Definition notifyTrace (w : World) (eventName : string) (data : Payload) : list Effect :=
  [Notify eventName data; Debug "Notifying subscribers for event:" [LStr eventName]] ++
  match subscribers (this w) !! eventName with
  | Some callbacks =>
      Debug "Found" [LNum (Z.of_nat (length callbacks)); LStr "subscribers"]
      :: concat (callbackTrace (heap w) data <$> callbacks)
  | None => [Debug "No subscribers found for event:" [LStr eventName]]
  end.

(** *** The result of a full resync *)

(** What the loop body keeps of id [i]. *)
Definition keep (contract : Contract) (i : Z) : option (Z * Order.t) :=
  match orders contract i with
  | inr order => if isOpen order then Some (i, order) else None
  | inl _ => None
  end.

(** The records a resync keeps, in ascending id order. *)
Definition keptOf (contract : Contract) (ids : list Z) : list (Z * Order.t) :=
  omap (keep contract) ids.

(** The allocation bound the loop runs to: [0] when the query fails. *)
Definition boundOf (contract : Contract) : Z :=
  match nextOrderId contract with inr n => n | inl _ => 0%Z end.

Definition fetched (contract : Contract) : list (Z * Order.t) :=
  keptOf contract (seqZ 0 (boundOf contract)).

(** The cache entries of kept records allocated from cell [n] on. *)
Definition entriesFrom (n : nat) (kept : list (Z * Order.t)) : list (Z * loc) :=
  zip kept.*1 (seq n (length kept)).

Definition objectsOf (kept : list (Z * Order.t)) : list OrderData.t :=
  (fun e => mkOrderData e.1 e.2) <$> kept.

Definition setAll (entries : list (Z * loc)) (m : list (Z * loc)) : list (Z * loc) :=
  foldl (fun acc e => JsMap.set e.1 e.2 acc) m entries.

(** The world a full resync leaves: the cache holds exactly the kept records,
    each in a freshly allocated object. *)
Definition rebuilt (contract : Contract) (w : World) : World :=
  {| this := set_orderCache (entriesFrom (length (heap w)) (fetched contract)) (this w);
     heap := heap w ++ objectsOf (fetched contract) |}.

(** *** Connection attempts *)

(** The answers of the environment to the connection steps of one attempt. *)
Definition connect (env : Env) : Error + (NetworkConfig * Provider * Contract) :=
  match getNetworkConfig env with
  | inl e => inl e
  | inr config =>
      match WebSocketProvider_new env (wsUrl config) with
      | inl e => inl e
      | inr p =>
          match provider_ready env p with
          | inl e => inl e
          | inr _ =>
              match Contract_new env (Some (config_contractAddress config))
                      (Some (config_contractABI config)) (Some p) with
              | inl e => inl e
              | inr contract => inr (config, p, contract)
              end
          end
      end
  end.

(** The world a completed [initialize] leaves. *)
Definition initialized (p : Provider) (contract : Contract) (w : World) : World :=
  with_this (set_reconnectAttempts 0)
    (with_this (set_isInitialized true)
       (rebuilt contract (with_this (set_provider (Some p)) w))).

(** The world after [this.reconnectAttempts++]. *)
Definition bumped (w : World) : World :=
  with_this (fun s => set_reconnectAttempts (reconnectAttempts s + 1) s) w.

Definition backoffDelay (w : World) : Z :=
  (reconnectDelay (this w) * Math_pow 2 (reconnectAttempts (this w) - 1))%Z.

(** The condition under which the resync keeps id [i] with record [order]. *)
Definition keeps (contract : Contract) (i : Z) (order : Order.t) : Prop :=
  (0 <= i < boundOf contract)%Z
  /\ orders contract i = inr order
  /\ Order.maker order ≠ AddressZero
  /\ Order.status order = 0%Z.

(** The mapping a [sync-complete] payload carries. *)
Definition entriesOf (data : Payload) : gmap Z loc :=
  match data with PSnapshot m => m | _ => ∅ end.

(** *** Results of a run, events and mutations *)

Definition worldAfter {A} (m : M A) (w : World) : World := (m w).1.2.
Definition traceOf {A} (m : M A) (w : World) : list Effect := (m w).2.
Definition completionOf {A} (m : M A) (w : World) : Completion A := (m w).1.1.

(** The world after [ref.status = status] on the object [l]. *)
Definition transitioned (status : string) (l : loc) (w : World) : World :=
  {| this := this w; heap := alter (OrderData.set_status status) l (heap w) |}.

(** The object the OrderCreated handler builds. *)
Definition createdOrder
    (orderId : Z) (maker taker sellToken : Address) (sellAmount : Z)
    (buyToken : Address) (buyAmount timestamp fee : Z) : OrderData.t :=
  {| OrderData.id := orderId;
     OrderData.maker := maker;
     OrderData.taker := taker;
     OrderData.sellToken := sellToken;
     OrderData.sellAmount := sellAmount;
     OrderData.buyToken := buyToken;
     OrderData.buyAmount := buyAmount;
     OrderData.timestamp := timestamp;
     OrderData.orderCreationFee := fee;
     OrderData.status := "Active";
     OrderData.tries := None |}.

(** The world after an upsert of a freshly allocated object. *)
Definition upserted (orderId : Z) (o : OrderData.t) (w : World) : World :=
  {| this := set_orderCache (JsMap.set orderId (length (heap w)) (cache w)) (this w);
     heap := heap w ++ [o] |}.

(** The incremental events of the ledger, and their handlers. *)
Inductive Event :=
| OrderCreated (orderId : Z) (maker taker sellToken : Address) (sellAmount : Z)
    (buyToken : Address) (buyAmount timestamp fee : Z)
| OrderFilled (orderId : Z)
| OrderCanceled (orderId : Z).

Definition handle (ev : Event) : M unit :=
  match ev with
  | OrderCreated orderId maker taker sellToken sellAmount buyToken buyAmount timestamp fee =>
      onOrderCreated orderId maker taker sellToken sellAmount buyToken buyAmount
        timestamp fee
  | OrderFilled orderId => onOrderFilled orderId
  | OrderCanceled orderId => onOrderCanceled orderId
  end.

Definition eventId (ev : Event) : Z :=
  match ev with
  | OrderCreated orderId _ _ _ _ _ _ _ _ => orderId
  | OrderFilled orderId => orderId
  | OrderCanceled orderId => orderId
  end.

Definition isCreation (ev : Event) : bool :=
  match ev with OrderCreated _ _ _ _ _ _ _ _ _ => true | _ => false end.

Definition terminal (status : string) : Prop :=
  status = "Filled" \/ status = "Canceled".

(** The no-regression property, at one world, id and event: a terminal
    status recorded for the id is not Active after the event. *)
Definition noRegressionAt (w : World) (orderId : Z) (ev : Event) : Prop :=
  forall status,
    statusOf w orderId = Some status ->
    terminal status ->
    statusOf (worldAfter (handle ev) w) orderId ≠ Some "Active".

(** The operations that change the cache. *)
Inductive Mutation :=
| MEvent (ev : Event)
| MUpdate (orderId : Z) (orderData : loc)
| MRemove (orderId : Z)
| MRemoveMany (orderIds : IdsArg)
| MSync (contract : option Contract).

Definition mutate (m : Mutation) : M unit :=
  match m with
  | MEvent ev => handle ev
  | MUpdate orderId orderData => updateOrderCache orderId orderData
  | MRemove orderId => removeOrder orderId
  | MRemoveMany orderIds => removeOrders orderIds
  | MSync contract => syncAllOrders contract
  end.

(** The mutations that write into an order object the cache already holds. *)
Definition inPlace (m : Mutation) : bool :=
  match m with
  | MEvent (OrderFilled _) | MEvent (OrderCanceled _) => true
  | _ => false
  end.

(** Snapshot stability, at one world, filter and mutation: the records the
    returned array shows are the same after the mutation. *)
Definition snapshotStableAt (w : World) (filterStatus : option string) (m : Mutation) : Prop :=
  forall refs w1 t,
    getOrders filterStatus w = (Normal refs, w1, t) ->
    view (heap (worldAfter (mutate m) w1)) refs = view (heap w1) refs.

(** *** Further vocabulary *)

Definition is_listen (e : Effect) : bool :=
  match e with Listen _ _ => true | _ => false end.

Definition is_debug (e : Effect) : bool :=
  match e with Debug _ _ => true | _ => false end.

(** The listener registrations of a trace. *)
Definition listens (t : list Effect) : list Effect := List.filter is_listen t.

(** No function object is registered twice for one event name. *)
Definition registryOk (w : World) : Prop :=
  forall eventName callbacks,
    subscribers (this w) !! eventName = Some callbacks ->
    NoDup (cb_id <$> callbacks).

(** No id has two entries in the cache. *)
Definition uniqueIds (w : World) : Prop := NoDup (cache w).*1.

(** The timers of a retry chain that starts with the counter at [from]
    and gives up at [max]. *)
Definition backoffSchedule (delay from max : Z) : list Effect :=
  (fun k => SetTimeout (delay * 2 ^ k)%Z) <$> seqZ from (max - from).

(** Every attempt meets an environment in which a connection step fails. *)
Definition allDown (envs : nat -> Env) : Prop :=
  forall k, exists e, connect (envs k) = inl e.

(** The three status names the service writes. *)
Definition knownStatus (status : string) : Prop :=
  status = "Active" \/ status = "Filled" \/ status = "Canceled".

(** Every order object carries one of the three status names. *)
Definition statusesOk (w : World) : Prop :=
  Forall (fun o => knownStatus (OrderData.status o)) (heap w).

(** *** Concrete data of the examples *)

Definition alice : Address := "0x00000000000000000000000000000000000000A1".
Definition tokenA : Address := "0x00000000000000000000000000000000000000AA".
Definition tokenB : Address := "0x00000000000000000000000000000000000000BB".

Definition openOrder : Order.t :=
  Order.mk alice AddressZero tokenA 10 tokenB 20 1700000000 0 1 0.

Definition ghostOrder : Order.t :=
  Order.mk AddressZero AddressZero AddressZero 0 AddressZero 0 0 0 0 0.

(** The scenario of the spec: bound 3, id 0 open, id 1 failing, id 2 with
    the zero maker. *)
Definition scenarioContract : Contract :=
  {| address := "0xC0";
     nextOrderId := inr 3%Z;
     orders := fun i =>
       if Z.eqb i 0 then inr openOrder
       else if Z.eqb i 1 then inl "call revert exception"
       else inr ghostOrder;
     filters_OrderCreated := inr tt |}.

Definition testConfig : NetworkConfig :=
  {| wsUrl := "wss://node"; config_contractAddress := "0xC0"; config_contractABI := "[]" |}.

(** An environment in which every connection step succeeds. *)
Definition envUp : Env :=
  {| getNetworkConfig := inr testConfig;
     WebSocketProvider_new := fun url => inr (WebSocketProvider url);
     provider_ready := fun _ => inr tt;
     Contract_new := fun a abi p =>
       match a, abi with
       | Some _, Some _ => inr scenarioContract
       | _, _ => inl "TypeError: Cannot read properties of undefined (reading 'map')"
       end;
     Date_now := 1702000000123 |}.

(** An environment whose socket never becomes ready. *)
Definition envDown : Env :=
  {| getNetworkConfig := inr testConfig;
     WebSocketProvider_new := fun url => inr (WebSocketProvider url);
     provider_ready := fun _ => inl "connection refused";
     Contract_new := Contract_new envUp;
     Date_now := 1702000000123 |}.

(** The first attempt fails, the following ones succeed. *)
Definition downThenUp (k : nat) : Env :=
  match k with O => envDown | S _ => envUp end.

Definition world0 : World := {| this := constructor; heap := [] |}.

Definition created5 : Event :=
  OrderCreated 5 alice AddressZero tokenA 10 tokenB 20 1700000000 1.

Definition activeWorld : World := worldAfter (handle created5) world0.
Definition filledWorld : World := worldAfter (handle (OrderFilled 5)) activeWorld.
Definition exhaustedWorld : World := with_this (set_reconnectAttempts 5) world0.
Definition retryingWorld : World := with_this (set_reconnectAttempts 2) world0.
Definition readyWorld : World := worldAfter (initialize (fun _ => envUp)) world0.

(** A ready service on which a caller has assigned [contractAddress] and
    [contractABI] from outside. *)
Definition configuredWorld : World :=
  with_this (fun s =>
    {| provider := provider s; subscribers := subscribers s;
       reconnectAttempts := reconnectAttempts s;
       maxReconnectAttempts := maxReconnectAttempts s;
       reconnectDelay := reconnectDelay s; orderCache := orderCache s;
       isInitialized := isInitialized s;
       contractAddress := Some "0xC0"; contractABI := Some "[]" |}) readyWorld.

(** Two subscribers, the first of which throws: both are called. *)
Definition thrower : Callback := {| cb_id := 1; cb_body := fun _ _ => Some "render failed" |}.
Definition listener : Callback := {| cb_id := 2; cb_body := fun _ _ => None |}.

Definition twoSubscribers : World :=
  worldAfter (subscribe "OrderFilled" listener)
    (worldAfter (subscribe "OrderFilled" thrower) activeWorld).

(** A contract whose ABI lacks the OrderCreated event: creating the filter
    throws. *)
Definition brokenContract : Contract :=
  {| address := address scenarioContract;
     nextOrderId := nextOrderId scenarioContract;
     orders := orders scenarioContract;
     filters_OrderCreated := inl "TypeError: contract.filters.OrderCreated is not a function" |}.

Definition envBroken : Env :=
  {| getNetworkConfig := inr testConfig;
     WebSocketProvider_new := fun url => inr (WebSocketProvider url);
     provider_ready := fun _ => inr tt;
     Contract_new := fun _ _ _ => inr brokenContract;
     Date_now := 1702000000123 |}.

(** A host whose wallet answers and whose node finds no code. *)
Definition emptyHost : Host :=
  {| eth_accounts := inr [alice]; getCode := fun _ => inr "0x" |}.

(** ** Basic facts *)

Ltac unfold_M :=
  unfold debug, await in *;
  unfold mbind, M_bind, mret, M_ret, bind, ret, try_catch, throw, emit, gets,
    modify in *.

Lemma bind_eq {A B} (m : M A) (k : A -> M B) (w : World) :
  (m ≫= k) w =
  match m w with
  | (Normal a, w1, t1) => match k a w1 with (r, w2, t2) => (r, w2, t1 ++ t2) end
  | (Throw e, w1, t1) => (Throw e, w1, t1)
  | (OutOfFuel, w1, t1) => (OutOfFuel, w1, t1)
  end.
Proof. reflexivity. Qed.

Lemma world_eta (w : World) : {| this := this w; heap := heap w |} = w.
Proof. by destruct w. Qed.

Lemma calls_app (t1 t2 : list Effect) : calls (t1 ++ t2) = calls t1 ++ calls t2.
Proof. apply List.filter_app. Qed.

Lemma notifications_app (t1 t2 : list Effect) :
  notifications (t1 ++ t2) = notifications t1 ++ notifications t2.
Proof. apply List.filter_app. Qed.

Lemma timeouts_app (t1 t2 : list Effect) :
  timeouts (t1 ++ t2) = timeouts t1 ++ timeouts t2.
Proof. apply List.filter_app. Qed.

(** Push the three projections through the conses and appends of a trace. *)
Ltac simpl_trace :=
  cbn [app];
  unfold notifications, calls, timeouts;
  repeat (progress (cbn [List.filter is_notify is_call is_timeout];
                    rewrite ?List.filter_app));
  change (List.filter is_notify) with notifications;
  change (List.filter is_call) with calls;
  change (List.filter is_timeout) with timeouts.

(** *** [notifySubscribers] *)

Lemma guarded_call_run data callback w :
  guarded_call data callback w = (Normal tt, w, callbackTrace (heap w) data callback).
Proof.
  unfold guarded_call, call, callbackTrace. unfold_M. cbn.
  destruct (cb_body callback (heap w) data); reflexivity.
Qed.

Lemma forEach_guarded_call data callbacks w :
  forEach callbacks (guarded_call data) w =
  (Normal tt, w, concat (callbackTrace (heap w) data <$> callbacks)).
Proof.
  induction callbacks as [|cb rest IH]; [reflexivity|].
  cbn [forEach]. rewrite bind_eq, guarded_call_run, IH. reflexivity.
Qed.

Lemma notifySubscribers_run eventName data w :
  notifySubscribers eventName data w = (Normal tt, w, notifyTrace w eventName data).
Proof.
  unfold notifySubscribers, notifyTrace.
  rewrite bind_eq. cbn [emit]. rewrite bind_eq. cbn [debug emit].
  rewrite bind_eq. cbn [gets].
  destruct (subscribers (this w) !! eventName) as [callbacks|]; [|reflexivity].
  rewrite bind_eq. cbn [debug emit].
  change (forEach callbacks _) with (forEach callbacks (guarded_call data)).
  rewrite forEach_guarded_call. reflexivity.
Qed.

Lemma calls_callbackTrace h data callback :
  calls (callbackTrace h data callback) = [Call (cb_id callback) data].
Proof. unfold callbackTrace. by destruct (cb_body callback h data). Qed.

Lemma notifications_callbackTrace h data callback :
  notifications (callbackTrace h data callback) = [].
Proof. unfold callbackTrace. by destruct (cb_body callback h data). Qed.

Lemma timeouts_callbackTrace h data callback :
  timeouts (callbackTrace h data callback) = [].
Proof. unfold callbackTrace. by destruct (cb_body callback h data). Qed.

Lemma calls_concat_callbackTrace h data callbacks :
  calls (concat (callbackTrace h data <$> callbacks)) =
  (fun cb => Call (cb_id cb) data) <$> callbacks.
Proof.
  induction callbacks as [|cb rest IH]; [reflexivity|].
  cbn [fmap list_fmap concat]. rewrite calls_app, calls_callbackTrace.
  cbn. f_equal. exact IH.
Qed.

Lemma notifications_concat_callbackTrace h data callbacks :
  notifications (concat (callbackTrace h data <$> callbacks)) = [].
Proof.
  induction callbacks as [|cb rest IH]; [reflexivity|].
  cbn [fmap list_fmap concat].
  by rewrite notifications_app, notifications_callbackTrace, IH.
Qed.

Lemma timeouts_concat_callbackTrace h data callbacks :
  timeouts (concat (callbackTrace h data <$> callbacks)) = [].
Proof.
  induction callbacks as [|cb rest IH]; [reflexivity|].
  cbn [fmap list_fmap concat].
  by rewrite timeouts_app, timeouts_callbackTrace, IH.
Qed.

Lemma notifications_notifyTrace w eventName data :
  notifications (notifyTrace w eventName data) = [Notify eventName data].
Proof.
  unfold notifyTrace. rewrite notifications_app.
  destruct (subscribers (this w) !! eventName) as [callbacks|]; [|reflexivity].
  change (notifications (Debug ?m ?a :: ?t)) with (notifications t).
  by rewrite notifications_concat_callbackTrace.
Qed.

Lemma timeouts_notifyTrace w eventName data :
  timeouts (notifyTrace w eventName data) = [].
Proof.
  unfold notifyTrace. rewrite timeouts_app.
  destruct (subscribers (this w) !! eventName) as [callbacks|]; [|reflexivity].
  change (timeouts (Debug ?m ?a :: ?t)) with (timeouts t).
  by rewrite timeouts_concat_callbackTrace.
Qed.

Lemma calls_notifyTrace w eventName data :
  calls (notifyTrace w eventName data) =
  (fun cb => Call (cb_id cb) data) <$> subscribersOf w eventName.
Proof.
  unfold notifyTrace, subscribersOf. rewrite calls_app.
  destruct (subscribers (this w) !! eventName) as [callbacks|]; [|reflexivity].
  change (calls (Debug ?m ?a :: ?t)) with (calls t).
  by rewrite calls_concat_callbackTrace.
Qed.

(** *** The [Map] operations *)

Lemma get_app_None {V} (k : Z) (m1 m2 : list (Z * V)) :
  JsMap.get k m1 = None -> JsMap.get k (m1 ++ m2) = JsMap.get k m2.
Proof.
  induction m1 as [|[k' v] rest IH]; [done|]. cbn.
  case_bool_decide; [done | exact IH].
Qed.

Lemma set_absent {V} (k : Z) (v : V) (m : list (Z * V)) :
  JsMap.get k m = None -> JsMap.set k v m = m ++ [(k, v)].
Proof.
  induction m as [|[k' v'] rest IH]; [done|]. cbn.
  case_bool_decide; [done|]. intros Hn. by rewrite IH.
Qed.

Lemma get_set_eq {V} (k : Z) (v : V) (m : list (Z * V)) :
  JsMap.get k (JsMap.set k v m) = Some v.
Proof.
  induction m as [|[k' v'] rest IH]; cbn.
  - by rewrite bool_decide_eq_true_2.
  - case_bool_decide as Hk; cbn.
    + by rewrite bool_decide_eq_true_2.
    + by rewrite bool_decide_eq_false_2.
Qed.

Lemma get_set_ne {V} (k k' : Z) (v : V) (m : list (Z * V)) :
  k ≠ k' -> JsMap.get k' (JsMap.set k v m) = JsMap.get k' m.
Proof.
  intros Hne. induction m as [|[k0 v0] rest IH]; cbn.
  - by rewrite bool_decide_eq_false_2.
  - case_bool_decide as Hk; cbn.
    + subst k0. by rewrite !bool_decide_eq_false_2.
    + case_bool_decide; [done | exact IH].
Qed.

Lemma delete_absent {V} (k : Z) (m : list (Z * V)) :
  JsMap.get k m = None -> JsMap.delete k m = m.
Proof.
  induction m as [|[k' v'] rest IH]; [done|]. cbn.
  case_bool_decide; [done|]. intros Hn. cbn. f_equal. by apply IH.
Qed.

Lemma get_delete_eq {V} (k : Z) (m : list (Z * V)) :
  JsMap.get k (JsMap.delete k m) = None.
Proof.
  induction m as [|[k' v'] rest IH]; [done|]. cbn.
  case_bool_decide as Hk; cbn; [exact IH|].
  by rewrite bool_decide_eq_false_2.
Qed.

Lemma get_delete_ne {V} (k k' : Z) (m : list (Z * V)) :
  k ≠ k' -> JsMap.get k' (JsMap.delete k m) = JsMap.get k' m.
Proof.
  intros Hne. induction m as [|[k0 v0] rest IH]; [done|]. cbn.
  case_bool_decide as Hk; cbn.
  - subst k0. by rewrite bool_decide_eq_false_2.
  - case_bool_decide; [done | exact IH].
Qed.

(** *** The loop of the full resync *)

Lemma syncOne_run contract i w :
  syncOne contract i w =
  match orders contract i with
  | inr order =>
      if isOpen order then
        (Normal tt,
         {| this := set_orderCache (JsMap.set i (length (heap w)) (cache w)) (this w);
            heap := heap w ++ [mkOrderData i order] |},
         [Debug "Added order to cache:" [LData (POrder (length (heap w)))]])
      else (Normal tt, w, [])
  | inl error => (Normal tt, w, [Debug "Failed to read order" [LNum i; LErr error]])
  end.
Proof.
  unfold syncOne. unfold_M.
  destruct (orders contract i) as [error|order]; cbn; [reflexivity|].
  destruct (isOpen order); reflexivity.
Qed.

Lemma set_orderCache_twice c1 c2 s :
  set_orderCache c1 (set_orderCache c2 s) = set_orderCache c1 s.
Proof. reflexivity. Qed.

Lemma orderCache_set c s : orderCache (set_orderCache c s) = c.
Proof. reflexivity. Qed.

Lemma setAll_cons n i order kept m :
  setAll (entriesFrom n ((i, order) :: kept)) m =
  setAll (entriesFrom (S n) kept) (JsMap.set i n m).
Proof. reflexivity. Qed.

Lemma objectsOf_cons i order kept :
  objectsOf ((i, order) :: kept) = mkOrderData i order :: objectsOf kept.
Proof. reflexivity. Qed.

Lemma keptOf_cons contract i rest :
  keptOf contract (i :: rest) =
  match keep contract i with
  | Some e => e :: keptOf contract rest
  | None => keptOf contract rest
  end.
Proof. reflexivity. Qed.

Lemma forEach_syncOne contract ids w :
  exists t,
    forEach ids (syncOne contract) w =
    (Normal tt,
     {| this := set_orderCache
                  (setAll (entriesFrom (length (heap w)) (keptOf contract ids)) (cache w))
                  (this w);
        heap := heap w ++ objectsOf (keptOf contract ids) |},
     t)
    /\ notifications t = [] /\ calls t = [] /\ timeouts t = [].
Proof.
  revert w. induction ids as [|i rest IH]; intros w.
  - exists []. cbn. rewrite app_nil_r. destruct w as [s h], s; done.
  - cbn [forEach]. rewrite bind_eq, syncOne_run, keptOf_cons. unfold keep.
    destruct (orders contract i) as [error|order].
    + destruct (IH w) as (t & -> & Hn & Hc & Ht).
      eexists. split; [reflexivity|]. by rewrite ?Hn, ?Hc, ?Ht.
    + destruct (isOpen order).
      * match goal with |- context [forEach rest _ ?w1] =>
          destruct (IH w1) as (t & -> & Hn & Hc & Ht) end.
        exists (Debug "Added order to cache:" [LData (POrder (length (heap w)))] :: t).
        split; [|by cbn; rewrite ?Hn, ?Hc, ?Ht].
        rewrite setAll_cons, objectsOf_cons. unfold cache. cbn [this heap].
        rewrite set_orderCache_twice, orderCache_set.
        rewrite length_app, Nat.add_1_r, <- app_assoc. reflexivity.
      * destruct (IH w) as (t & -> & Hn & Hc & Ht).
        eexists. split; [reflexivity|]. by rewrite ?Hn, ?Hc, ?Ht.
Qed.

Lemma keptOf_keys_sub contract ids k :
  k ∈ (keptOf contract ids).*1 -> k ∈ ids.
Proof.
  unfold keptOf. induction ids as [|i rest IH]; cbn; [done|].
  unfold keep at 1. destruct (orders contract i) as [e|o].
  - intros H. apply list_elem_of_further. by apply IH.
  - destruct (isOpen o); cbn.
    + intros [->|H]%elem_of_cons; [apply list_elem_of_here|].
      apply list_elem_of_further. by apply IH.
    + intros H. apply list_elem_of_further. by apply IH.
Qed.

Lemma keptOf_keys_NoDup contract ids :
  NoDup ids -> NoDup (keptOf contract ids).*1.
Proof.
  unfold keptOf. induction 1 as [|i rest Hi Hnd IH]; cbn; [constructor|].
  unfold keep at 1. destruct (orders contract i) as [e|o]; [exact IH|].
  destruct (isOpen o); [|exact IH]. cbn. constructor; [|exact IH].
  intros Hin. apply Hi. by eapply keptOf_keys_sub.
Qed.

Lemma get_entriesFrom_None k n (kept : list (Z * Order.t)) :
  k ∉ kept.*1 -> JsMap.get k (entriesFrom n kept) = None.
Proof.
  unfold entriesFrom. revert n. induction kept as [|[k' o] rest IH]; intros n Hk; [done|].
  cbn in *. apply not_elem_of_cons in Hk as [Hne Hk].
  rewrite bool_decide_eq_false_2 by done. by apply IH.
Qed.

(** Entries with pairwise distinct keys, set one by one into a map that has
    none of the keys, are appended in order. *)
Lemma setAll_fresh n (kept : list (Z * Order.t)) (m : list (Z * loc)) :
  NoDup kept.*1 ->
  (forall k, k ∈ kept.*1 -> JsMap.get k m = None) ->
  setAll (entriesFrom n kept) m = m ++ entriesFrom n kept.
Proof.
  unfold setAll, entriesFrom. revert n m.
  induction kept as [|[k o] rest IH]; intros n m Hnd Hm; cbn.
  - by rewrite app_nil_r.
  - cbn in Hnd. apply NoDup_cons in Hnd as [Hk Hnd].
    rewrite set_absent by (apply Hm; cbn; apply list_elem_of_here).
    rewrite IH; [by rewrite <- app_assoc | done |].
    intros k' Hk'. rewrite get_app_None.
    + cbn. rewrite bool_decide_eq_false_2; [done|]. intros ->. done.
    + apply Hm. cbn. by apply list_elem_of_further.
Qed.

(** The object a rebuilt cache shows for an id. *)
Lemma get_entriesFrom_object i (h : Heap) (kept : list (Z * Order.t)) :
  (l ← JsMap.get i (entriesFrom (length h) kept); (h ++ objectsOf kept) !! l) =
  mkOrderData i <$> JsMap.get i kept.
Proof.
  unfold entriesFrom, objectsOf. revert h.
  induction kept as [|[k o] rest IH]; intros h; [done|]. cbn.
  case_bool_decide as Hk; cbn.
  - subst k. by rewrite list_lookup_middle.
  - specialize (IH (h ++ [mkOrderData k o])).
    rewrite length_app, Nat.add_1_r, <- app_assoc in IH. exact IH.
Qed.

Lemma keep_key contract j k order :
  keep contract j = Some (k, order) -> k = j.
Proof.
  unfold keep. destruct (orders contract j) as [e|o]; [done|].
  destruct (isOpen o); [|done]. intros E. injection E. congruence.
Qed.

Lemma get_keptOf contract ids i :
  JsMap.get i (keptOf contract ids) =
  if bool_decide (i ∈ ids) then snd <$> keep contract i else None.
Proof.
  induction ids as [|j rest IH]; [done|]. rewrite keptOf_cons.
  destruct (decide (j = i)) as [->|Hne].
  - rewrite (bool_decide_eq_true_2 (i ∈ i :: rest)) by apply list_elem_of_here.
    destruct (keep contract i) as [[k order]|] eqn:E.
    + apply keep_key in E as ->. cbn. by rewrite bool_decide_eq_true_2.
    + rewrite IH. by case_bool_decide.
  - assert (bool_decide (i ∈ j :: rest) = bool_decide (i ∈ rest)) as ->.
    { apply bool_decide_ext. rewrite elem_of_cons. intuition congruence. }
    destruct (keep contract j) as [[k order]|] eqn:E; [|exact IH].
    apply keep_key in E as ->. cbn. by rewrite bool_decide_eq_false_2.
Qed.

Lemma fetched_keys_NoDup contract : NoDup (fetched contract).*1.
Proof. apply keptOf_keys_NoDup, NoDup_seqZ. Qed.

Lemma queryBound_run contract w :
  try_catch
    (n ← await (nextOrderId contract);
     debug "nextOrderId result:" [LNum n] ;;
     ret n)
    (fun error =>
       debug "nextOrderId call failed, using default value:" [LErr error] ;;
       ret 0%Z) w =
  (Normal (boundOf contract), w,
   [match nextOrderId contract with
    | inr n => Debug "nextOrderId result:" [LNum n]
    | inl error => Debug "nextOrderId call failed, using default value:" [LErr error]
    end]).
Proof.
  unfold boundOf. unfold_M. by destruct (nextOrderId contract).
Qed.

Lemma syncAllOrders_Some contract w :
  exists t,
    syncAllOrders (Some contract) w = (Normal tt, rebuilt contract w, t)
    /\ notifications t = [Notify "orderSyncComplete" (snapshot (rebuilt contract w))]
    /\ calls t =
       (fun cb => Call (cb_id cb) (snapshot (rebuilt contract w)))
         <$> subscribersOf w "orderSyncComplete"
    /\ timeouts t = [].
Proof.
  unfold syncAllOrders.
  unfold try_catch at 1. rewrite bind_eq. cbn [mret M_ret ret].
  rewrite bind_eq. cbn [debug emit]. rewrite bind_eq, queryBound_run.
  rewrite bind_eq. cbn [cache_clear modify]. rewrite bind_eq.
  match goal with |- context [forEach _ _ ?w1] =>
    destruct (forEach_syncOne contract (seqZ 0 (boundOf contract)) w1)
      as (t & -> & Hn & Hc & Ht) end.
  unfold cache, with_this, JsMap.clear. cbn [heap this].
  rewrite set_orderCache_twice, orderCache_set.
  fold (fetched contract).
  rewrite setAll_fresh; [|apply fetched_keys_NoDup|done].
  cbn [app]. fold (rebuilt contract w).
  rewrite bind_eq. cbn [gets]. rewrite bind_eq. cbn [debug emit].
  rewrite bind_eq. cbn [gets]. rewrite notifySubscribers_run.
  eexists. split; [reflexivity|].
  destruct (nextOrderId contract); simpl_trace;
    by rewrite Hn, Hc, Ht, notifications_notifyTrace, calls_notifyTrace,
      timeouts_notifyTrace.
Qed.

Lemma syncAllOrders_None w :
  syncAllOrders None w =
  (Normal tt, with_this (set_orderCache []) w,
   Debug "Order sync failed:"
     [LErr "TypeError: Cannot read properties of undefined (reading 'address')"]
   :: notifyTrace (with_this (set_orderCache []) w) "orderSyncComplete" (PSnapshot ∅)).
Proof.
  unfold syncAllOrders, try_catch. rewrite bind_eq. cbn [throw].
  rewrite bind_eq. cbn [debug emit]. rewrite bind_eq. cbn [cache_clear modify].
  rewrite notifySubscribers_run. reflexivity.
Qed.

(** *** Connection life cycle *)

Lemma setupEventListeners_run contract w :
  exists t,
    setupEventListeners contract w = (Normal tt, w, t)
    /\ notifications t = [] /\ calls t = [] /\ timeouts t = [].
Proof.
  unfold setupEventListeners. unfold_M. cbn.
  destruct (provider (this w)); cbn; [|by eexists].
  destruct (filters_OrderCreated contract) as [e|[]]; cbn; by eexists.
Qed.

Lemma initialize_body_done env w :
  isInitialized (this w) = true ->
  initialize_body env w = (Normal true, w, []).
Proof. intros H. unfold initialize_body. unfold_M. by rewrite H. Qed.

Lemma initialize_body_run env w :
  isInitialized (this w) = false ->
  match connect env with
  | inl e =>
      exists w1 t,
        initialize_body env w = (Throw e, w1, t)
        /\ set_provider None (this w1) = set_provider None (this w)
        /\ heap w1 = heap w
        /\ notifications t = [] /\ calls t = [] /\ timeouts t = []
  | inr (config, p, contract) =>
      exists t,
        initialize_body env w = (Normal true, initialized p contract w, t)
        /\ notifications t =
           [Notify "orderSyncComplete"
              (snapshot (rebuilt contract (with_this (set_provider (Some p)) w)))]
        /\ timeouts t = []
  end.
Proof.
  intros Hinit. unfold initialize_body, connect.
  rewrite bind_eq. cbn [gets]. rewrite Hinit.
  rewrite bind_eq. cbn [debug emit]. rewrite bind_eq.
  destruct (getNetworkConfig env) as [e|config]; cbn [await throw mret M_ret ret].
  { exists w. eexists. split; [reflexivity|]. done. }
  rewrite bind_eq. cbn [debug emit]. rewrite bind_eq.
  destruct (WebSocketProvider_new env (wsUrl config)) as [e|p];
    cbn [await throw mret M_ret ret].
  { exists w. eexists. split; [reflexivity|]. done. }
  rewrite bind_eq. cbn [modify]. rewrite bind_eq.
  destruct (provider_ready env p) as [e|[]]; cbn [await throw mret M_ret ret].
  { eexists _, _. split; [reflexivity|]. done. }
  rewrite bind_eq. cbn [debug emit]. rewrite bind_eq. cbn [gets].
  cbn [with_this this provider set_provider]. rewrite bind_eq.
  destruct (Contract_new env _ _ (Some p)) as [e|contract];
    cbn [await throw mret M_ret ret].
  { eexists _, _. split; [reflexivity|]. done. }
  rewrite bind_eq. cbn [debug emit]. rewrite bind_eq.
  destruct (syncAllOrders_Some contract (with_this (set_provider (Some p)) w))
    as (t1 & E1 & Hn1 & _ & Ht1).
  unfold with_this in E1 |- *. cbn [this heap] in E1 |- *. rewrite E1.
  rewrite bind_eq. cbn [debug emit]. rewrite bind_eq.
  match goal with |- context [setupEventListeners contract ?w1] =>
    destruct (setupEventListeners_run contract w1) as (t2 & -> & Hn2 & _ & Ht2) end.
  eexists. split; [reflexivity|].
  simpl_trace. by rewrite ?Hn1, ?Hn2, ?Ht1, ?Ht2.
Qed.

Lemma reconnect_with_exhausted (init : M bool) w :
  (reconnectAttempts (this w) >= maxReconnectAttempts (this w))%Z ->
  reconnect_with init w =
  (Normal false, w, [Debug "Max reconnection attempts reached" []]).
Proof.
  intros H. unfold reconnect_with. unfold_M.
  by rewrite bool_decide_eq_true_2.
Qed.

Lemma reconnect_with_retry (init : M bool) w :
  (reconnectAttempts (this w) < maxReconnectAttempts (this w))%Z ->
  reconnect_with init w =
  match init (bumped w) with
  | (r, w2, t) =>
      (r, w2,
       Debug "Reconnecting in"
         [LNum (backoffDelay (bumped w));
          LNum (reconnectAttempts (this (bumped w)));
          LNum (maxReconnectAttempts (this (bumped w)))]
       :: SetTimeout (backoffDelay (bumped w)) :: t)
  end.
Proof.
  intros H. unfold reconnect_with. unfold_M.
  rewrite bool_decide_eq_false_2 by lia.
  fold (bumped w). unfold backoffDelay.
  by destruct (init (bumped w)) as [[[b|e|] w2] t].
Qed.

Lemma attemptsLeft_bumped w :
  (reconnectAttempts (this w) < maxReconnectAttempts (this w))%Z ->
  attemptsLeft w = S (attemptsLeft (bumped w)).
Proof. unfold attemptsLeft, bumped. cbn. lia. Qed.

Lemma set_provider_None_fields s1 s2 :
  set_provider None s1 = set_provider None s2 ->
  reconnectAttempts s1 = reconnectAttempts s2
  /\ maxReconnectAttempts s1 = maxReconnectAttempts s2
  /\ reconnectDelay s1 = reconnectDelay s2
  /\ isInitialized s1 = isInitialized s2
  /\ orderCache s1 = orderCache s2
  /\ subscribers s1 = subscribers s2.
Proof. unfold set_provider. intros [= ]. done. Qed.

(** With fuel above the attempts left, [initialize] returns a boolean. *)
Lemma initialize_fuel_returns fuel envs w :
  attemptsLeft w < fuel ->
  exists b w' t, initialize_fuel fuel envs w = (Normal b, w', t).
Proof.
  revert envs w. induction fuel as [|fuel IH]; intros envs w Hfuel; [lia|].
  cbn [initialize_fuel]. unfold try_catch.
  destruct (isInitialized (this w)) eqn:Hinit.
  { rewrite initialize_body_done by done. by eexists _, _, _. }
  pose proof (initialize_body_run (envs O) w Hinit) as Hrun.
  destruct (connect (envs O)) as [e|[[config p] contract]].
  - destruct Hrun as (w1 & t1 & -> & Hframe & _).
    apply set_provider_None_fields in Hframe as (Ha & Hm & _).
    rewrite bind_eq. cbn [debug emit].
    destruct (decide (reconnectAttempts (this w1) < maxReconnectAttempts (this w1))%Z)
      as [Hlt|Hge].
    + rewrite reconnect_with_retry by done.
      destruct (IH (fun k => envs (S k)) (bumped w1)) as (b & w' & t & ->).
      { pose proof (attemptsLeft_bumped w1 Hlt).
        unfold attemptsLeft in *. rewrite Ha, Hm in *. lia. }
      by eexists _, _, _.
    + rewrite reconnect_with_exhausted by lia. by eexists _, _, _.
  - destruct Hrun as (t & -> & _). by eexists _, _, _.
Qed.

Lemma initialize_fuel_reset fuel envs w w' t :
  isInitialized (this w) = false ->
  initialize_fuel fuel envs w = (Normal true, w', t) ->
  reconnectAttempts (this w') = 0%Z /\ isInitialized (this w') = true.
Proof.
  revert envs w t. induction fuel as [|fuel IH]; intros envs w t Hinit; [done|].
  cbn [initialize_fuel]. unfold try_catch.
  pose proof (initialize_body_run (envs O) w Hinit) as Hrun.
  destruct (connect (envs O)) as [e|[[config p] contract]].
  - destruct Hrun as (w1 & t1 & -> & Hframe & _).
    apply set_provider_None_fields in Hframe as (Ha & Hm & _ & Hi & _).
    rewrite bind_eq. cbn [debug emit].
    destruct (decide (reconnectAttempts (this w1) < maxReconnectAttempts (this w1))%Z)
      as [Hlt|Hge].
    + rewrite reconnect_with_retry by done.
      destruct (initialize_fuel fuel _ (bumped w1)) as [[r w2] t2] eqn:E.
      intros [= -> -> _]. eapply IH; [|exact E]. cbn. congruence.
    + rewrite reconnect_with_exhausted by lia. done.
  - destruct Hrun as (t0 & -> & _). intros [= <- _]. done.
Qed.

(** [initialize], called with fuel for every attempt left, returns. *)
Lemma initialize_returns envs w :
  exists b w' t, initialize envs w = (Normal b, w', t).
Proof. apply initialize_fuel_returns. lia. Qed.

(** On a service that completed [initialize], the "disconnect" listener
    counts an attempt and waits, and the [initialize] it ends in returns at
    once: nothing is resynchronised. *)
Lemma onDisconnect_when_initialized envs e w :
  isInitialized (this w) = true ->
  (reconnectAttempts (this w) < maxReconnectAttempts (this w))%Z ->
  onDisconnect envs e w =
  (Normal tt, bumped w,
   [Debug "Provider disconnected:" [LErr e];
    Debug "Reconnecting in"
      [LNum (backoffDelay (bumped w));
       LNum (reconnectAttempts (this (bumped w)));
       LNum (maxReconnectAttempts (this (bumped w)))];
    SetTimeout (backoffDelay (bumped w))]).
Proof.
  intros Hinit Hlt. unfold onDisconnect. rewrite bind_eq. cbn [debug emit].
  rewrite bind_eq. unfold reconnect. rewrite reconnect_with_retry by done.
  rewrite attemptsLeft_bumped by done. cbn [initialize_fuel]. unfold try_catch.
  rewrite initialize_body_done by done. reflexivity.
Qed.

(** ** Claims about the connection life cycle *)

(** C10. When [isInitialized] is already set, [initialize] returns [true] at
    once: the whole service state (order cache, subscriber registry,
    reconnect counter and every other field) and the object store are
    unchanged, and nothing at all happens outside: the trace is empty, so no
    resync ran and no event was published. *)
Theorem initialize_when_initialized (envs : nat -> Env) (w : World) :
  isInitialized (this w) = true ->
  initialize envs w = (Normal true, w, []).
Proof.
  intros H. unfold initialize. cbn [initialize_fuel]. unfold try_catch.
  by rewrite initialize_body_done.
Qed.

(** C9. With the attempt counter at or above the maximum, [reconnect]
    returns [false] at once, without a timer and without calling
    [initialize]; an [initialize] whose connection attempt fails in that
    state returns that [false] as a normal completion (no exception), with
    no timer scheduled and the counter as it was. *)
Theorem reconnect_gives_up (envs : nat -> Env) (w : World) :
  (reconnectAttempts (this w) >= maxReconnectAttempts (this w))%Z ->
  reconnect envs w = (Normal false, w, [Debug "Max reconnection attempts reached" []])
  /\ (forall e,
        isInitialized (this w) = false ->
        connect (envs O) = inl e ->
        exists w1 t,
          initialize envs w = (Normal false, w1, t)
          /\ timeouts t = []
          /\ reconnectAttempts (this w1) = reconnectAttempts (this w)).
Proof.
  intros Hmax. split.
  - unfold reconnect. by apply reconnect_with_exhausted.
  - intros e Hinit Hconn. unfold initialize. cbn [initialize_fuel]. unfold try_catch.
    pose proof (initialize_body_run (envs O) w Hinit) as Hrun. rewrite Hconn in Hrun.
    destruct Hrun as (w1 & t1 & -> & Hframe & _ & _ & _ & Ht).
    apply set_provider_None_fields in Hframe as (Ha & Hm & _).
    rewrite bind_eq. cbn [debug emit].
    rewrite reconnect_with_exhausted by lia.
    eexists _, _. split; [reflexivity|]. split; [|done].
    simpl_trace. by rewrite Ht.
Qed.

(** C2. For a reconnect attempt numbered [n] with [1 <= n <= maxReconnectAttempts]
    (the counter stands at [n - 1] when [reconnect] is entered), [reconnect]
    sets the counter to [n], waits [reconnectDelay * 2^(n-1)] and only then
    runs [initialize]; and any [initialize] that was not yet initialized and
    returns [true] leaves the counter at [0]. *)
Theorem reconnect_backoff (envs : nat -> Env) (w : World) (n : Z) :
  (1 <= n <= maxReconnectAttempts (this w))%Z ->
  reconnectAttempts (this w) = (n - 1)%Z ->
  reconnect envs w =
    (let delay := (reconnectDelay (this w) * 2 ^ (n - 1))%Z in
     match initialize envs (with_this (set_reconnectAttempts n) w) with
     | (r, w', t) =>
         (r, w',
          Debug "Reconnecting in"
            [LNum delay; LNum n; LNum (maxReconnectAttempts (this w))]
          :: SetTimeout delay :: t)
     end)
  /\ (forall envs0 w0 w' t,
        isInitialized (this w0) = false ->
        initialize envs0 w0 = (Normal true, w', t) ->
        reconnectAttempts (this w') = 0%Z).
Proof.
  intros Hn Hattempts. split.
  - unfold reconnect. rewrite reconnect_with_retry by lia.
    rewrite attemptsLeft_bumped by lia.
    assert (bumped w = with_this (set_reconnectAttempts n) w) as ->.
    { unfold bumped, with_this. do 2 f_equal. lia. }
    unfold backoffDelay, initialize, Math_pow. cbn [with_this this heap].
    cbn [reconnectAttempts maxReconnectAttempts reconnectDelay set_reconnectAttempts].
    reflexivity.
  - intros envs0 w0 w' t Hinit Hrun.
    by eapply initialize_fuel_reset.
Qed.

(** ** Claims about the dispatcher *)

(** C5. Publishing an event returns normally and leaves the service state
    unchanged, whatever the callbacks do; the callbacks invoked are exactly
    the registered ones, each once and with the published payload, also
    after one of them has thrown; the error of a throwing callback is handed
    to the debug log; and when the event name has no entry in the registry
    no callback is invoked and the trace holds the publication and two debug
    lines only. *)
Theorem notifySubscribers_isolates (eventName : string) (data : Payload) (w : World) :
  exists t,
    notifySubscribers eventName data w = (Normal tt, w, t)
    /\ calls t = (fun cb => Call (cb_id cb) data) <$> subscribersOf w eventName
    /\ (forall cb e,
          cb ∈ subscribersOf w eventName ->
          cb_body cb (heap w) data = Some e ->
          Debug "Error in subscriber callback:" [LErr e] ∈ t)
    /\ (subscribers (this w) !! eventName = None ->
        t = [Notify eventName data;
             Debug "Notifying subscribers for event:" [LStr eventName];
             Debug "No subscribers found for event:" [LStr eventName]]).
Proof.
  exists (notifyTrace w eventName data). split_and!.
  - apply notifySubscribers_run.
  - apply calls_notifyTrace.
  - intros cb e Hin Hthrow. unfold notifyTrace, subscribersOf in *.
    destruct (subscribers (this w) !! eventName) as [callbacks|];
      [|by apply elem_of_nil in Hin].
    cbn in Hin. do 3 apply list_elem_of_further.
    apply list_elem_of_In, List.in_concat.
    exists (callbackTrace (heap w) data cb). split.
    + apply list_elem_of_In, list_elem_of_fmap. by exists cb.
    + apply list_elem_of_In. unfold callbackTrace. rewrite Hthrow. set_solver.
  - intros Hnone. unfold notifyTrace. by rewrite Hnone.
Qed.

(** ** Claims about the full resync *)

Lemma get_None_not_key {V} (k : Z) (m : list (Z * V)) :
  JsMap.get k m = None <-> k ∉ m.*1.
Proof.
  induction m as [|[k' v] rest IH]; cbn.
  - split; [intros _; apply not_elem_of_nil | done].
  - rewrite not_elem_of_cons. case_bool_decide as Hk.
    + subst. split; [done | intros [? _]; done].
    + rewrite IH. split; [intros ?; split; congruence | intros [_ ?]; done].
Qed.

(** [Object.fromEntries] of a map with unique keys has the lookups of the
    map. *)
Lemma fromEntries_lookup_acc {V} (m : list (Z * V)) (acc : gmap Z V) (k : Z) :
  NoDup m.*1 ->
  foldl (fun a e => <[e.1 := e.2]> a) acc m !! k =
  match JsMap.get k m with Some v => Some v | None => acc !! k end.
Proof.
  revert acc. induction m as [|[k' v] rest IH]; intros acc Hnd; [done|].
  cbn in *. apply NoDup_cons in Hnd as [Hk' Hnd]. rewrite IH by done.
  case_bool_decide as Hk.
  - subst k'. apply get_None_not_key in Hk' as ->. by rewrite lookup_insert_eq.
  - destruct (JsMap.get k rest); [done|]. by rewrite lookup_insert_ne.
Qed.

Lemma fromEntries_lookup {V} (m : list (Z * V)) (k : Z) :
  NoDup m.*1 -> JsMap.fromEntries m !! k = JsMap.get k m.
Proof.
  intros Hnd. unfold JsMap.fromEntries. rewrite fromEntries_lookup_acc by done.
  by destruct (JsMap.get k m).
Qed.

Lemma entriesFrom_keys n (kept : list (Z * Order.t)) :
  (entriesFrom n kept).*1 = kept.*1.
Proof. unfold entriesFrom. apply fst_zip. rewrite length_seq, length_fmap. lia. Qed.

Lemma isOpen_spec (order : Order.t) :
  isOpen order = true <->
  Order.maker order ≠ AddressZero /\ Order.status order = 0%Z.
Proof.
  unfold isOpen. rewrite andb_true_iff, negb_true_iff, Z.eqb_eq.
  destruct (String.eqb_spec (Order.maker order) AddressZero); intuition congruence.
Qed.

Lemma get_fetched contract i :
  JsMap.get i (fetched contract) =
  if bool_decide (0 <= i < boundOf contract)%Z then snd <$> keep contract i else None.
Proof.
  unfold fetched. rewrite get_keptOf. apply (f_equal (fun b : bool => if b then _ else _)).
  apply bool_decide_ext. rewrite elem_of_seqZ. lia.
Qed.

Lemma get_fetched_Some contract i order :
  JsMap.get i (fetched contract) = Some order <-> keeps contract i order.
Proof.
  rewrite get_fetched. unfold keeps, keep. case_bool_decide as Hrange.
  - destruct (orders contract i) as [e|o]; cbn.
    + split; [done | intros (_ & ? & _); done].
    + pose proof (isOpen_spec o) as Hopen. destruct (isOpen o); cbn.
      * split; [intros [= ->]; tauto | intros (_ & [= ->] & _); done].
      * split; [done|]. intros (_ & [= ->] & Hm & Hs).
        destruct Hopen as [_ Hopen]. by specialize (Hopen (conj Hm Hs)).
  - split; [done | intros (? & _); done].
Qed.

Lemma recordOf_rebuilt contract w i :
  recordOf (rebuilt contract w) i = mkOrderData i <$> JsMap.get i (fetched contract).
Proof. unfold recordOf, rebuilt, cache. cbn. apply get_entriesFrom_object. Qed.

Lemma get_rebuilt_is_Some contract w i :
  is_Some (JsMap.get i (cache (rebuilt contract w))) <->
  is_Some (JsMap.get i (fetched contract)).
Proof.
  rewrite <- !not_eq_None_Some, !get_None_not_key.
  unfold rebuilt, cache. cbn. by rewrite entriesFrom_keys.
Qed.

(** The object a resync caches for a kept record, field by field. *)
Lemma recordOf_rebuilt_open contract w i order :
  keeps contract i order ->
  recordOf (rebuilt contract w) i =
  Some {| OrderData.id := i;
          OrderData.maker := Order.maker order;
          OrderData.taker := Order.taker order;
          OrderData.sellToken := Order.sellToken order;
          OrderData.sellAmount := Order.sellAmount order;
          OrderData.buyToken := Order.buyToken order;
          OrderData.buyAmount := Order.buyAmount order;
          OrderData.timestamp := Order.timestamp order;
          OrderData.orderCreationFee := Order.orderCreationFee order;
          OrderData.status := "Active";
          OrderData.tries := Some (Order.tries order) |}.
Proof.
  intros Hkeeps. rewrite recordOf_rebuilt.
  pose proof Hkeeps as (_ & _ & _ & Hs).
  apply get_fetched_Some in Hkeeps as ->. cbn. unfold mkOrderData.
  by rewrite Hs.
Qed.

(** C3. A full resync with a contract returns normally and leaves the cache
    [rebuilt]: whatever the cache held before is gone, and an id is in the
    cache exactly when it lies below the allocation bound, its fetch
    succeeded, its maker is not the zero address and its status is [0]
    (Active).  The cached object then has the loop index as id, the maker,
    taker, tokens, amounts, timestamp, fee and tries of the fetched record,
    and status "Active".  Ids whose fetch failed, zero-maker records and
    non-Active records are therefore absent.  In the scenario with bound 3,
    id 0 open, id 1 failing and id 2 with the zero maker, the cache is
    exactly the entry of id 0, holding the fields of record 0. *)
Theorem syncAllOrders_rebuilds (contract : Contract) (w : World) :
  exists t,
    syncAllOrders (Some contract) w = (Normal tt, rebuilt contract w, t)
    /\ (forall i,
          is_Some (JsMap.get i (cache (rebuilt contract w))) <->
          exists order, keeps contract i order)
    /\ (forall i order,
          keeps contract i order ->
          recordOf (rebuilt contract w) i =
          Some {| OrderData.id := i;
                  OrderData.maker := Order.maker order;
                  OrderData.taker := Order.taker order;
                  OrderData.sellToken := Order.sellToken order;
                  OrderData.sellAmount := Order.sellAmount order;
                  OrderData.buyToken := Order.buyToken order;
                  OrderData.buyAmount := Order.buyAmount order;
                  OrderData.timestamp := Order.timestamp order;
                  OrderData.orderCreationFee := Order.orderCreationFee order;
                  OrderData.status := "Active";
                  OrderData.tries := Some (Order.tries order) |})
    /\ (forall o0 e o2,
          nextOrderId contract = inr 3%Z ->
          orders contract 0%Z = inr o0 ->
          Order.maker o0 ≠ AddressZero ->
          Order.status o0 = 0%Z ->
          orders contract 1%Z = inl e ->
          orders contract 2%Z = inr o2 ->
          Order.maker o2 = AddressZero ->
          cache (rebuilt contract w) = [(0%Z, length (heap w))]
          /\ recordOf (rebuilt contract w) 0%Z =
             Some {| OrderData.id := 0%Z;
                     OrderData.maker := Order.maker o0;
                     OrderData.taker := Order.taker o0;
                     OrderData.sellToken := Order.sellToken o0;
                     OrderData.sellAmount := Order.sellAmount o0;
                     OrderData.buyToken := Order.buyToken o0;
                     OrderData.buyAmount := Order.buyAmount o0;
                     OrderData.timestamp := Order.timestamp o0;
                     OrderData.orderCreationFee := Order.orderCreationFee o0;
                     OrderData.status := "Active";
                     OrderData.tries := Some (Order.tries o0) |}).
Proof.
  destruct (syncAllOrders_Some contract w) as (t & Hrun & _).
  exists t. split_and!; [exact Hrun | | |].
  - intros i. rewrite get_rebuilt_is_Some. unfold is_Some.
    by setoid_rewrite get_fetched_Some.
  - intros i order Hkeeps. by apply recordOf_rebuilt_open.
  - intros o0 e o2 Hbound H0 Hm0 Hs0 H1 H2 Hm2.
    assert (fetched contract = [(0%Z, o0)]) as Hfetched.
    { unfold fetched, boundOf. rewrite Hbound.
      change (seqZ 0 3) with [0%Z; 1%Z; 2%Z].
      rewrite !keptOf_cons. unfold keep. rewrite H0, H1, H2.
      assert (isOpen o0 = true) as -> by (by apply isOpen_spec).
      assert (isOpen o2 = false) as ->; [|done].
      unfold isOpen. rewrite Hm2. reflexivity. }
    split.
    + unfold rebuilt, cache. cbn. by rewrite Hfetched.
    + apply recordOf_rebuilt_open. unfold keeps, boundOf. rewrite Hbound.
      split_and!; [lia | lia | done..].
Qed.

Lemma rebuilt_keys_NoDup contract w : NoDup (cache (rebuilt contract w)).*1.
Proof.
  unfold rebuilt, cache. cbn. rewrite entriesFrom_keys. apply fetched_keys_NoDup.
Qed.

(** C6. Every call of [syncAllOrders] returns normally after exactly one
    publication, of "orderSyncComplete", whose payload is the snapshot of the
    cache as the call leaves it: the mapping with the lookups of the cache.
    Every subscriber of that event is called once with it.  This holds when
    the rebuilt cache is empty, and when the sync itself fails (a missing
    contract): then the cache is cleared and the payload is the empty
    mapping. *)
Theorem syncAllOrders_publishes_once (contract : option Contract) (w : World) :
  exists w' t,
    syncAllOrders contract w = (Normal tt, w', t)
    /\ notifications t = [Notify "orderSyncComplete" (snapshot w')]
    /\ calls t =
       (fun cb => Call (cb_id cb) (snapshot w')) <$> subscribersOf w "orderSyncComplete"
    /\ (forall i, entriesOf (snapshot w') !! i = JsMap.get i (cache w'))
    /\ (cache w' = [] -> snapshot w' = PSnapshot ∅)
    /\ (contract = None -> cache w' = []).
Proof.
  destruct contract as [c|].
  - destruct (syncAllOrders_Some c w) as (t & Hrun & Hn & Hc & _).
    exists (rebuilt c w), t. split_and!; try done.
    + intros i. cbn. apply fromEntries_lookup, rebuilt_keys_NoDup.
    + intros Hempty. unfold snapshot. by rewrite Hempty.
  - rewrite syncAllOrders_None.
    exists (with_this (set_orderCache []) w). eexists. split; [reflexivity|].
    split_and!; try done.
    + simpl_trace. by rewrite notifications_notifyTrace.
    + simpl_trace. by rewrite calls_notifyTrace.
Qed.

(** ** The incremental handlers *)

Lemma set_same {V} (k : Z) (v : V) (m : list (Z * V)) :
  JsMap.get k m = Some v -> JsMap.set k v m = m.
Proof.
  induction m as [|[k' v'] rest IH]; [done|]. cbn.
  case_bool_decide as Hk; [by intros [= ->]; subst|].
  intros Hget. by rewrite IH.
Qed.

Lemma set_orderCache_same s : set_orderCache (orderCache s) s = s.
Proof. by destruct s. Qed.

Lemma onOrderFilled_absent orderId w :
  JsMap.get orderId (cache w) = None ->
  onOrderFilled orderId w = (Normal tt, w, []).
Proof. intros H. unfold onOrderFilled. rewrite bind_eq. cbn [gets]. by rewrite H. Qed.

Lemma onOrderCanceled_absent orderId w :
  JsMap.get orderId (cache w) = None ->
  onOrderCanceled orderId w = (Normal tt, w, []).
Proof. intros H. unfold onOrderCanceled. rewrite bind_eq. cbn [gets]. by rewrite H. Qed.

Lemma onOrderFilled_present orderId l w :
  JsMap.get orderId (cache w) = Some l ->
  onOrderFilled orderId w =
  (Normal tt, transitioned "Filled" l w,
   Debug "Cache updated for filled order:" [LData (POrder l)]
   :: notifyTrace (transitioned "Filled" l w) "OrderFilled" (POrder l)).
Proof.
  intros H. unfold onOrderFilled. rewrite bind_eq. cbn [gets]. rewrite H.
  rewrite bind_eq. cbn [write_status modify]. rewrite bind_eq. cbn [cache_set modify].
  rewrite bind_eq. cbn [debug emit]. rewrite notifySubscribers_run.
  unfold with_this, cache in *. cbn [this heap].
  rewrite (set_same _ _ _ H), set_orderCache_same. reflexivity.
Qed.

Lemma onOrderCanceled_present orderId l w :
  JsMap.get orderId (cache w) = Some l ->
  onOrderCanceled orderId w =
  (Normal tt, transitioned "Canceled" l w,
   notifyTrace (transitioned "Canceled" l w) "OrderCanceled" (POrder l)).
Proof.
  intros H. unfold onOrderCanceled. rewrite bind_eq. cbn [gets]. rewrite H.
  rewrite bind_eq. cbn [write_status modify]. rewrite bind_eq.
  cbn [updateOrderCache cache_set modify]. rewrite notifySubscribers_run.
  unfold with_this, cache in *. cbn [this heap].
  rewrite (set_same _ _ _ H), set_orderCache_same. reflexivity.
Qed.

Lemma onOrderCreated_run orderId maker taker sellToken sellAmount buyToken
    buyAmount timestamp fee w :
  let o := createdOrder orderId maker taker sellToken sellAmount buyToken
             buyAmount timestamp fee in
  exists t,
    onOrderCreated orderId maker taker sellToken sellAmount buyToken buyAmount
      timestamp fee w = (Normal tt, upserted orderId o w, t)
    /\ notifications t = [Notify "OrderCreated" (POrder (length (heap w)))].
Proof.
  intros o. unfold onOrderCreated, try_catch.
  rewrite bind_eq. cbn [debug emit]. rewrite bind_eq. cbn [alloc].
  rewrite bind_eq. cbn [debug emit]. rewrite bind_eq. cbn [cache_set modify].
  rewrite bind_eq. cbn [debug emit]. rewrite bind_eq. cbn [gets].
  rewrite bind_eq. cbn [debug emit]. rewrite notifySubscribers_run.
  eexists. split; [reflexivity|].
  simpl_trace. by rewrite notifications_notifyTrace.
Qed.

(** *** Removal *)

Lemma forEach_cache_delete ids w :
  forEach ids cache_delete w =
  (Normal tt,
   with_this (fun s => set_orderCache
                (foldl (fun m k => JsMap.delete k m) (orderCache s) ids) s) w,
   []).
Proof.
  revert w. induction ids as [|k rest IH]; intros w.
  - cbn. unfold with_this. by rewrite set_orderCache_same, world_eta.
  - cbn [forEach]. rewrite bind_eq. cbn [cache_delete modify]. rewrite IH.
    reflexivity.
Qed.

Lemma foldl_delete_absent {V} (ids : list Z) (m : list (Z * V)) :
  Forall (fun k => JsMap.get k m = None) ids ->
  foldl (fun m k => JsMap.delete k m) m ids = m.
Proof.
  induction 1 as [|k rest Hk Hrest IH]; [done|]. cbn.
  by rewrite delete_absent.
Qed.

Lemma getOrders_all w :
  getOrders None w =
  (Normal (JsMap.values (cache w)), w, [Debug "Getting orders with filter:" [LOther]]).
Proof. reflexivity. Qed.

Lemma getOrders_filtered status w :
  status ≠ "" ->
  getOrders (Some status) w =
  (Normal (List.filter (fun l => bool_decide (status_at (heap w) l = Some status))
             (JsMap.values (cache w))),
   w, [Debug "Getting orders with filter:" [LStr status]]).
Proof.
  intros Hne. unfold getOrders, truthy. unfold_M.
  destruct (String.eqb_spec status ""); [done|]. reflexivity.
Qed.

Lemma removeOrders_run ids w :
  let w' := with_this (fun s => set_orderCache
                         (foldl (fun m k => JsMap.delete k m) (orderCache s) ids) s) w in
  removeOrders (IdArray ids) w =
  (Normal tt, w',
   Debug "Removing orders:" [LOther]
   :: Debug "Getting orders with filter:" [LOther]
   :: notifyTrace w' "ordersUpdated" (POrders (JsMap.values (cache w')))).
Proof.
  intros w'. unfold removeOrders.
  rewrite bind_eq. cbn [debug emit]. rewrite bind_eq, forEach_cache_delete.
  fold w'. rewrite bind_eq, getOrders_all, notifySubscribers_run. reflexivity.
Qed.

(** ** Claims about the incremental handlers *)

(** C7. For an id the cache does not hold, the OrderFilled and OrderCanceled
    handlers and [removeOrder] return normally, leave the whole state
    unchanged and do nothing outside (in particular they publish nothing);
    [removeOrders] on ids none of which is held returns normally with the
    state unchanged.  Whenever the OrderFilled or the OrderCanceled handler
    does publish, the id was in the cache. *)
Theorem absent_id_tolerated (orderId : Z) (w : World) :
  JsMap.get orderId (cache w) = None ->
  onOrderFilled orderId w = (Normal tt, w, [])
  /\ onOrderCanceled orderId w = (Normal tt, w, [])
  /\ removeOrder orderId w = (Normal tt, w, [])
  /\ (forall ids,
        Forall (fun k => JsMap.get k (cache w) = None) ids ->
        exists t, removeOrders (IdArray ids) w = (Normal tt, w, t))
  /\ (forall k w0,
        notifications (traceOf (onOrderFilled k) w0) ≠ [] ->
        is_Some (JsMap.get k (cache w0)))
  /\ (forall k w0,
        notifications (traceOf (onOrderCanceled k) w0) ≠ [] ->
        is_Some (JsMap.get k (cache w0))).
Proof.
  intros Habsent. split_and!.
  - by apply onOrderFilled_absent.
  - by apply onOrderCanceled_absent.
  - unfold removeOrder, cache_delete, modify, with_this. unfold cache in Habsent.
    by rewrite delete_absent, set_orderCache_same, world_eta.
  - intros ids Hids. rewrite removeOrders_run. cbn zeta.
    unfold with_this. unfold cache in Hids.
    rewrite foldl_delete_absent, set_orderCache_same, world_eta by done.
    by eexists.
  - intros k w0 Hpub. destruct (JsMap.get k (cache w0)) eqn:E; [done|].
    unfold traceOf in Hpub. by rewrite onOrderFilled_absent in Hpub.
  - intros k w0 Hpub. destruct (JsMap.get k (cache w0)) eqn:E; [done|].
    unfold traceOf in Hpub. by rewrite onOrderCanceled_absent in Hpub.
Qed.

Lemma statusOf_transitioned status l w orderId :
  statusOf (transitioned status l w) orderId =
  match JsMap.get orderId (cache w) with
  | Some l' =>
      if decide (l = l') then (fun _ => status) <$> heap w !! l'
      else OrderData.status <$> heap w !! l'
  | None => None
  end.
Proof.
  unfold statusOf, recordOf, transitioned, cache. cbn [this heap].
  destruct (JsMap.get orderId (orderCache (this w))) as [l'|]; [|done].
  cbn [mbind option_bind].
  destruct (decide (l = l')) as [->|Hne].
  - rewrite list_lookup_alter_eq. by destruct (heap w !! l').
  - by rewrite list_lookup_alter_ne.
Qed.

Lemma statusOf_upserted_eq orderId o w :
  statusOf (upserted orderId o w) orderId = Some (OrderData.status o).
Proof.
  unfold statusOf, recordOf, upserted, cache. cbn.
  rewrite get_set_eq. cbn. by rewrite list_lookup_middle.
Qed.

Lemma recordOf_upserted_ne k orderId o w d :
  k ≠ orderId ->
  recordOf w orderId = Some d ->
  recordOf (upserted k o w) orderId = Some d.
Proof.
  unfold recordOf, upserted, cache. cbn. intros Hne.
  rewrite get_set_ne by done.
  destruct (JsMap.get orderId (orderCache (this w))) as [l|]; [|done]. cbn.
  intros Hl. by apply lookup_app_l_Some.
Qed.

Lemma terminal_transition status l w orderId s :
  terminal status ->
  statusOf w orderId = Some s ->
  terminal s ->
  exists s', statusOf (transitioned status l w) orderId = Some s' /\ terminal s'.
Proof.
  intros Hstatus Hs Hterm. rewrite statusOf_transitioned.
  unfold statusOf, recordOf in Hs.
  destruct (JsMap.get orderId (cache w)) as [l'|]; [|done]. cbn in Hs.
  destruct (heap w !! l') as [d|]; [|done]. cbn in *.
  destruct (decide (l = l')); eexists; split; try reflexivity; [done|congruence].
Qed.

(** C1, as the code has it.  The OrderFilled and OrderCanceled handlers, and
    an OrderCreated event for another id, leave a terminal status (Filled or
    Canceled) terminal: it is never Active afterwards.  An OrderCreated
    event for the same id upserts a new Active record whatever the cache
    held, so after it the id is Active. *)
Theorem terminal_status_kept (w : World) (orderId : Z) (status : string) (ev : Event) :
  statusOf w orderId = Some status ->
  terminal status ->
  (isCreation ev = false \/ eventId ev ≠ orderId ->
   exists status',
     statusOf (worldAfter (handle ev) w) orderId = Some status' /\ terminal status')
  /\ (isCreation ev = true -> eventId ev = orderId ->
      statusOf (worldAfter (handle ev) w) orderId = Some "Active").
Proof.
  intros Hstatus Hterm. unfold worldAfter.
  destruct ev as [k maker taker sellToken sellAmount buyToken buyAmount timestamp fee|k|k];
    cbn [handle isCreation eventId].
  - destruct (onOrderCreated_run k maker taker sellToken sellAmount buyToken
                buyAmount timestamp fee w) as (t & -> & _). cbn [fst snd].
    split.
    + intros [?|Hne]; [done|]. exists status. split; [|done].
      unfold statusOf in *.
      destruct (recordOf w orderId) as [d|] eqn:E; [|done].
      by rewrite (recordOf_upserted_ne _ _ _ _ d Hne E).
    + intros _ ->. by rewrite statusOf_upserted_eq.
  - split; [intros _|done].
    destruct (JsMap.get k (cache w)) as [l|] eqn:E.
    + rewrite (onOrderFilled_present _ _ _ E). cbn [fst snd].
      eapply terminal_transition; [by left|done..].
    + rewrite (onOrderFilled_absent _ _ E). by exists status.
  - split; [intros _|done].
    destruct (JsMap.get k (cache w)) as [l|] eqn:E.
    + rewrite (onOrderCanceled_present _ _ _ E). cbn [fst snd].
      eapply terminal_transition; [by right|done..].
    + rewrite (onOrderCanceled_absent _ _ E). by exists status.
Qed.

(** ** Snapshots of the cache *)

Lemma getOrders_run filterStatus w :
  getOrders filterStatus w =
  (Normal (if truthy filterStatus
           then List.filter
                  (fun l => bool_decide (status_at (heap w) l = filterStatus))
                  (JsMap.values (cache w))
           else JsMap.values (cache w)),
   w,
   [Debug "Getting orders with filter:"
      [match filterStatus with Some s => LStr s | None => LOther end]]).
Proof. unfold getOrders. unfold_M. by destruct (truthy filterStatus). Qed.

Lemma mutate_heap_extends m w :
  inPlace m = false ->
  exists ext, heap (worldAfter (mutate m) w) = heap w ++ ext.
Proof.
  unfold worldAfter.
  destruct m as [[k maker taker sellToken sellAmount buyToken buyAmount timestamp fee|k|k]
                |k l|k|[|ids]|[c|]];
    cbn [mutate handle inPlace]; intros Hm; try done.
  - destruct (onOrderCreated_run k maker taker sellToken sellAmount buyToken
                buyAmount timestamp fee w) as (t & -> & _). by eexists.
  - exists []. by rewrite app_nil_r.
  - exists []. by rewrite app_nil_r.
  - exists []. by rewrite app_nil_r.
  - rewrite removeOrders_run. exists []. by rewrite app_nil_r.
  - destruct (syncAllOrders_Some c w) as (t & -> & _). by eexists.
  - rewrite syncAllOrders_None. exists []. by rewrite app_nil_r.
Qed.

Lemma view_extends (h ext : list OrderData.t) (refs : list nat) :
  Forall (fun l => l < length h) refs ->
  view (h ++ ext) refs = view h refs.
Proof.
  unfold view. induction 1 as [|l rest Hl Hrest IH]; [done|].
  cbn. by rewrite IH, lookup_app_l.
Qed.

Lemma values_wf w : wf w -> Forall (fun l => l < length (heap w)) (JsMap.values (cache w)).
Proof. unfold wf, JsMap.values. intros H. by apply Forall_fmap. Qed.

Lemma filter_Forall {A} (P : A -> Prop) (f : A -> bool) (l : list A) :
  Forall P l -> Forall P (List.filter f l).
Proof.
  induction 1 as [|x rest Hx Hrest IH]; [constructor|]. cbn.
  destruct (f x); [by constructor | done].
Qed.

(** *** The references of the cache stay valid *)

Lemma Forall_set {V} (P : Z * V -> Prop) (k : Z) (v : V) (m : list (Z * V)) :
  P (k, v) -> Forall P m -> Forall P (JsMap.set k v m).
Proof.
  intros Hkv. induction 1 as [|[k' v'] rest Hx Hrest IH]; cbn.
  - by constructor.
  - case_bool_decide; by constructor.
Qed.

Lemma Forall_deleteAll {V} (P : Z * V -> Prop) (ids : list Z) (m : list (Z * V)) :
  Forall P m -> Forall P (foldl (fun m k => JsMap.delete k m) m ids).
Proof.
  revert m. induction ids as [|k rest IH]; intros m Hm; [done|].
  cbn. apply IH. unfold JsMap.delete. by apply filter_Forall.
Qed.

Lemma wf_world0 : wf world0.
Proof. constructor. Qed.

Lemma wf_upserted k o w : wf w -> wf (upserted k o w).
Proof.
  unfold wf, upserted, cache. cbn. rewrite length_app. cbn. intros Hwf.
  apply Forall_set; [cbn; lia|].
  eapply Forall_impl; [exact Hwf|]. cbn. intros; lia.
Qed.

Lemma wf_transitioned status l w : wf w -> wf (transitioned status l w).
Proof. unfold wf, transitioned, cache. cbn. by rewrite length_alter. Qed.

Lemma wf_rebuilt contract w : wf (rebuilt contract w).
Proof.
  unfold wf, rebuilt, cache, entriesFrom, objectsOf. cbn.
  rewrite length_app, length_fmap.
  generalize (length (heap w)) as n. generalize (fetched contract) as kept.
  induction kept as [|[k o] rest IH]; intros n; cbn; constructor.
  - cbn. lia.
  - eapply Forall_impl; [apply (IH (S n))|]. cbn. intros; lia.
Qed.

(** Every mutation keeps the cache well formed, provided an object handed to
    [updateOrderCache] exists. *)
Lemma mutate_wf m w :
  wf w ->
  (forall k l, m = MUpdate k l -> l < length (heap w)) ->
  wf (worldAfter (mutate m) w).
Proof.
  intros Hwf Hupdate. unfold worldAfter.
  destruct m as [[k maker taker sellToken sellAmount buyToken buyAmount timestamp fee|k|k]
                |k l|k|[|ids]|[c|]];
    cbn [mutate handle].
  - destruct (onOrderCreated_run k maker taker sellToken sellAmount buyToken
                buyAmount timestamp fee w) as (t & -> & _). by apply wf_upserted.
  - destruct (JsMap.get k (cache w)) as [l|] eqn:E.
    + rewrite (onOrderFilled_present _ _ _ E). by apply wf_transitioned.
    + by rewrite (onOrderFilled_absent _ _ E).
  - destruct (JsMap.get k (cache w)) as [l|] eqn:E.
    + rewrite (onOrderCanceled_present _ _ _ E). by apply wf_transitioned.
    + by rewrite (onOrderCanceled_absent _ _ E).
  - unfold wf, cache in *. cbn. apply Forall_set; [|done].
    cbn. by apply (Hupdate k l).
  - unfold wf, cache in *. cbn. unfold JsMap.delete. by apply filter_Forall.
  - done.
  - rewrite removeOrders_run. unfold wf, cache in *. cbn.
    by apply Forall_deleteAll.
  - destruct (syncAllOrders_Some c w) as (t & -> & _). apply wf_rebuilt.
  - rewrite syncAllOrders_None. constructor.
Qed.

(** C8, as the code has it.  [getOrders] returns normally, without changing
    the state, a new array of references to the cached order objects: all
    of them in cache order, or those whose status equals a (non-empty)
    filter.  Mutations that insert, overwrite or remove cache entries
    (OrderCreated, [updateOrderCache], [removeOrder], [removeOrders], a full
    resync) leave the records that array shows unchanged.  An OrderFilled or
    OrderCanceled event writes the new status into the cached object itself:
    the array then shows that record with the new status, and every other
    record as before. *)
Theorem getOrders_snapshot (filterStatus : option string) (w : World) :
  wf w ->
  exists refs t,
    getOrders filterStatus w = (Normal refs, w, t)
    /\ refs = (if truthy filterStatus
               then List.filter
                      (fun l => bool_decide (status_at (heap w) l = filterStatus))
                      (JsMap.values (cache w))
               else JsMap.values (cache w))
    /\ (forall m,
          inPlace m = false ->
          view (heap (worldAfter (mutate m) w)) refs = view (heap w) refs)
    /\ (forall k,
          view (heap (worldAfter (mutate (MEvent (OrderFilled k))) w)) refs =
          (fun l => if bool_decide (JsMap.get k (cache w) = Some l)
                    then OrderData.set_status "Filled" <$> heap w !! l
                    else heap w !! l) <$> refs)
    /\ (forall k,
          view (heap (worldAfter (mutate (MEvent (OrderCanceled k))) w)) refs =
          (fun l => if bool_decide (JsMap.get k (cache w) = Some l)
                    then OrderData.set_status "Canceled" <$> heap w !! l
                    else heap w !! l) <$> refs).
Proof.
  intros Hwf. rewrite getOrders_run. eexists _, _. split; [reflexivity|].
  split; [reflexivity|]. split_and!.
  - intros m Hm. destruct (mutate_heap_extends m w Hm) as (ext & ->).
    apply view_extends. destruct (truthy filterStatus).
    + by apply filter_Forall, values_wf.
    + by apply values_wf.
  - intros k. unfold worldAfter, view. cbn [mutate handle].
    apply list_fmap_ext. intros _ l _.
    destruct (JsMap.get k (cache w)) as [l'|] eqn:E.
    + rewrite (onOrderFilled_present _ _ _ E). cbn [fst snd transitioned heap].
      case_bool_decide as Hl.
      * injection Hl as ->. by rewrite list_lookup_alter_eq.
      * rewrite list_lookup_alter_ne; [done | congruence].
    + rewrite (onOrderFilled_absent _ _ E). cbn [fst snd].
      by rewrite bool_decide_eq_false_2.
  - intros k. unfold worldAfter, view. cbn [mutate handle].
    apply list_fmap_ext. intros _ l _.
    destruct (JsMap.get k (cache w)) as [l'|] eqn:E.
    + rewrite (onOrderCanceled_present _ _ _ E). cbn [fst snd transitioned heap].
      case_bool_decide as Hl.
      * injection Hl as ->. by rewrite list_lookup_alter_eq.
      * rewrite list_lookup_alter_ne; [done | congruence].
    + rewrite (onOrderCanceled_absent _ _ E). cbn [fst snd].
      by rewrite bool_decide_eq_false_2.
Qed.

(** ** Cleanup eligibility *)

(** C4. [checkCleanupEligibility] always returns normally and leaves the
    state unchanged.  When the contract object is built and the fetch of the
    record succeeds, the result carries the record and [isEligible] is true
    exactly when [floor(now / 1000) - timestamp] exceeds 1209600 seconds
    (14 days); when building the contract or fetching the record fails, the
    result is [isEligible = false] with that error. *)
Theorem checkCleanupEligibility_result (env : Env) (orderId : Z) (w : World) :
  totalExpiry = 1209600%Z
  /\ exists t,
      checkCleanupEligibility env orderId w =
      (Normal
         match Contract_new env (contractAddress (this w)) (contractABI (this w))
                 (provider (this w)) with
         | inl e => {| isEligible := false; order := None; error := Some e |}
         | inr contract =>
             match orders contract orderId with
             | inl e => {| isEligible := false; order := None; error := Some e |}
             | inr record =>
                 {| isEligible :=
                      bool_decide
                        (Date_now env `div` 1000 - Order.timestamp record > 1209600)%Z;
                    order := Some record;
                    error := None |}
             end
         end,
       w, t).
Proof.
  split; [reflexivity|].
  unfold checkCleanupEligibility. unfold_M. cbn.
  destruct (Contract_new env _ _ _) as [e|contract]; cbn; [by eexists|].
  destruct (orders contract orderId) as [e|record]; cbn; by eexists.
Qed.

(** ** Concrete runs *)

(** The scenario of the spec, run: only id 0 is cached, and the one
    publication carries one entry. *)
Example scenario_sync :
  cache (worldAfter (syncAllOrders (Some scenarioContract)) world0) = [(0%Z, 0)]
  /\ notifications (traceOf (syncAllOrders (Some scenarioContract)) world0) =
     [Notify "orderSyncComplete" (PSnapshot {[ 0%Z := 0 ]})].
Proof. split; vm_compute; reflexivity. Qed.

(** Five failed attempts wait 1, 2, 4, 8 and 16 seconds, then [false]. *)
Example backoff_run :
  timeouts (traceOf (initialize (fun _ => envDown)) world0) =
    [SetTimeout 1000; SetTimeout 2000; SetTimeout 4000; SetTimeout 8000;
     SetTimeout 16000]
  /\ completionOf (initialize (fun _ => envDown)) world0 = Normal false.
Proof. split; vm_compute; reflexivity. Qed.

Example isolation_run :
  onOrderFilled 5 twoSubscribers =
  (Normal tt, transitioned "Filled" 0 twoSubscribers,
   [Debug "Cache updated for filled order:" [LData (POrder 0)];
    Notify "OrderFilled" (POrder 0);
    Debug "Notifying subscribers for event:" [LStr "OrderFilled"];
    Debug "Found" [LNum 2; LStr "subscribers"];
    Debug "Calling subscriber callback" [];
    Call 1 (POrder 0);
    Debug "Error in subscriber callback:" [LErr "render failed"];
    Debug "Calling subscriber callback" [];
    Call 2 (POrder 0);
    Debug "Subscriber callback completed" []]).
Proof. vm_compute. reflexivity. Qed.

(** The fields [contractAddress] and [contractABI] are never assigned: after
    a completed [initialize] the eligibility check still builds its contract
    from [undefined] arguments. *)
Example eligibility_after_initialize :
  contractAddress (this readyWorld) = None
  /\ contractABI (this readyWorld) = None
  /\ completionOf (checkCleanupEligibility envUp 0) readyWorld =
     Normal {| isEligible := false; order := None;
               error := Some "TypeError: Cannot read properties of undefined (reading 'map')" |}.
Proof. split_and!; vm_compute; reflexivity. Qed.

(** *** Counterexamples to the claims the code does not meet *)

(** C1 fails as stated: id 5 is Filled in the cache, a second OrderCreated
    event for id 5 arrives, and the cache then holds id 5 as Active. *)
Lemma OrderCreated_overwrites_terminal :
  statusOf filledWorld 5 = Some "Filled"
  /\ statusOf (worldAfter (handle created5) filledWorld) 5 = Some "Active"
  /\ ~ noRegressionAt filledWorld 5 created5.
Proof.
  split; [vm_compute; reflexivity|]. split; [vm_compute; reflexivity|].
  intros H. apply (H "Filled"); [vm_compute; reflexivity | by left |].
  vm_compute. reflexivity.
Qed.

(** C8 fails as stated: the array [getOrders] returned for a cache holding
    id 5 as Active shows the record as Filled once the OrderFilled handler
    has run. *)
Lemma OrderFilled_changes_snapshot :
  completionOf (getOrders None) activeWorld = Normal [0]
  /\ OrderData.status <$> (view (heap activeWorld) [0] !!! 0%nat)
     = Some "Active"
  /\ OrderData.status
       <$> (view (heap (worldAfter (mutate (MEvent (OrderFilled 5))) activeWorld)) [0]
              !!! 0%nat)
     = Some "Filled"
  /\ ~ snapshotStableAt activeWorld None (MEvent (OrderFilled 5)).
Proof.
  split_and!; try (vm_compute; reflexivity).
  intros H. specialize (H [0] activeWorld _ (getOrders_all activeWorld)).
  vm_compute in H. discriminate H.
Qed.

(** *** The theorems at concrete inputs *)

Lemma terminal_status_kept_witness :
  statusOf filledWorld 5 = Some "Filled"
  /\ terminal "Filled"
  /\ exists status',
       statusOf (worldAfter (handle (OrderCanceled 5)) filledWorld) 5 = Some status'
       /\ terminal status'.
Proof.
  assert (statusOf filledWorld 5 = Some "Filled") as H1 by (vm_compute; reflexivity).
  assert (terminal "Filled") as H2 by (left; reflexivity).
  split; [exact H1|]. split; [exact H2|].
  apply (proj1 (terminal_status_kept filledWorld 5 "Filled" (OrderCanceled 5) H1 H2)).
  left. reflexivity.
Defined.

Lemma reconnect_backoff_witness :
  (1 <= 3 <= maxReconnectAttempts (this retryingWorld))%Z
  /\ reconnectAttempts (this retryingWorld) = (3 - 1)%Z
  /\ (exists r w' t,
        reconnect (fun _ => envDown) retryingWorld =
        (r, w',
         Debug "Reconnecting in" [LNum 4000; LNum 3; LNum 5] :: SetTimeout 4000 :: t))
  /\ reconnectAttempts (this (worldAfter (initialize downThenUp) retryingWorld)) = 0%Z.
Proof.
  assert (1 <= 3 <= maxReconnectAttempts (this retryingWorld))%Z as H1 by (cbn; lia).
  assert (reconnectAttempts (this retryingWorld) = (3 - 1)%Z) as H2 by reflexivity.
  split; [exact H1|]. split; [exact H2|].
  destruct (reconnect_backoff (fun _ => envDown) retryingWorld 3 H1 H2) as [Hrun Hreset].
  split.
  - rewrite Hrun. destruct (initialize _ _) as [[r w'] t]. exists r, w', t. reflexivity.
  - apply (Hreset downThenUp retryingWorld _
             (traceOf (initialize downThenUp) retryingWorld));
      vm_compute; reflexivity.
Defined.

Lemma absent_id_tolerated_witness :
  JsMap.get 6 (cache filledWorld) = None
  /\ onOrderFilled 6 filledWorld = (Normal tt, filledWorld, [])
  /\ removeOrder 6 filledWorld = (Normal tt, filledWorld, []).
Proof.
  assert (JsMap.get 6 (cache filledWorld) = None) as H by reflexivity.
  split; [exact H|].
  pose proof (absent_id_tolerated 6 filledWorld H) as (Hf & _ & Hr & _).
  split; [exact Hf | exact Hr].
Defined.

Lemma getOrders_snapshot_witness :
  wf activeWorld
  /\ exists refs t,
       getOrders (Some "Active") activeWorld = (Normal refs, activeWorld, t)
       /\ view (heap (worldAfter (mutate (MRemove 5)) activeWorld)) refs
          = view (heap activeWorld) refs.
Proof.
  assert (wf activeWorld) as H by (repeat constructor).
  split; [exact H|].
  destruct (getOrders_snapshot (Some "Active") activeWorld H)
    as (refs & t & Hrun & _ & Hstable & _).
  exists refs, t. split; [exact Hrun|]. apply Hstable. reflexivity.
Defined.

Lemma reconnect_gives_up_witness :
  (reconnectAttempts (this exhaustedWorld) >= maxReconnectAttempts (this exhaustedWorld))%Z
  /\ reconnect (fun _ => envUp) exhaustedWorld =
     (Normal false, exhaustedWorld, [Debug "Max reconnection attempts reached" []]).
Proof.
  assert (reconnectAttempts (this exhaustedWorld)
          >= maxReconnectAttempts (this exhaustedWorld))%Z as H by (cbn; lia).
  split; [exact H|].
  exact (proj1 (reconnect_gives_up (fun _ => envUp) exhaustedWorld H)).
Defined.

Lemma initialize_when_initialized_witness :
  isInitialized (this readyWorld) = true
  /\ initialize (fun _ => envDown) readyWorld = (Normal true, readyWorld, []).
Proof.
  assert (isInitialized (this readyWorld) = true) as H by (vm_compute; reflexivity).
  split; [exact H|].
  exact (initialize_when_initialized (fun _ => envDown) readyWorld H).
Defined.


Lemma syncAllOrders_rebuilds_witness :
  cache (rebuilt scenarioContract activeWorld) = [(0%Z, 1)]
  /\ recordOf (rebuilt scenarioContract activeWorld) 0 =
     Some {| OrderData.id := 0;
             OrderData.maker := alice;
             OrderData.taker := AddressZero;
             OrderData.sellToken := tokenA;
             OrderData.sellAmount := 10;
             OrderData.buyToken := tokenB;
             OrderData.buyAmount := 20;
             OrderData.timestamp := 1700000000;
             OrderData.orderCreationFee := 1;
             OrderData.status := "Active";
             OrderData.tries := Some 0%Z |}
  /\ JsMap.get 5 (cache (rebuilt scenarioContract activeWorld)) = None.
Proof.
  destruct (syncAllOrders_rebuilds scenarioContract activeWorld)
    as (t & _ & Hin & _ & Hscenario).
  destruct (Hscenario openOrder "call revert exception" ghostOrder) as [Hc Hr];
    try reflexivity; try discriminate.
  split; [exact Hc|]. split; [exact Hr|].
  destruct (JsMap.get 5 (cache (rebuilt scenarioContract activeWorld))) eqn:E;
    [|reflexivity].
  destruct (proj1 (Hin 5%Z) (ex_intro _ _ E)) as (o & Hrange & _).
  cbn in Hrange. lia.
Defined.

Lemma notifySubscribers_isolates_witness :
  exists t,
    notifySubscribers "OrderFilled" (POrder 0) twoSubscribers
    = (Normal tt, twoSubscribers, t)
    /\ calls t = [Call 1 (POrder 0); Call 2 (POrder 0)]
    /\ Debug "Error in subscriber callback:" [LErr "render failed"] ∈ t.
Proof.
  destruct (notifySubscribers_isolates "OrderFilled" (POrder 0) twoSubscribers)
    as (t & Hrun & Hcalls & Hlogged & _).
  exists t. split; [exact Hrun|]. split; [exact Hcalls|].
  apply (Hlogged thrower "render failed"); [|reflexivity].
  apply list_elem_of_here.
Defined.

Lemma syncAllOrders_publishes_once_witness :
  (exists w' t,
     syncAllOrders None activeWorld = (Normal tt, w', t)
     /\ notifications t = [Notify "orderSyncComplete" (PSnapshot ∅)]
     /\ cache w' = [])
  /\ (exists w' t,
        syncAllOrders (Some scenarioContract) activeWorld = (Normal tt, w', t)
        /\ notifications t = [Notify "orderSyncComplete" (snapshot w')]
        /\ entriesOf (snapshot w') !! 0%Z = JsMap.get 0 (cache w')).
Proof.
  split.
  - destruct (syncAllOrders_publishes_once None activeWorld)
      as (w' & t & Hrun & Hn & _ & _ & Hempty & Hfail).
    exists w', t. split; [exact Hrun|].
    rewrite Hn, (Hempty (Hfail eq_refl)), (Hfail eq_refl). split; reflexivity.
  - destruct (syncAllOrders_publishes_once (Some scenarioContract) activeWorld)
      as (w' & t & Hrun & Hn & _ & Hlookup & _).
    exists w', t. split; [exact Hrun|]. split; [exact Hn | apply Hlookup].
Defined.

Lemma checkCleanupEligibility_result_witness :
  exists t,
    checkCleanupEligibility envUp 0 configuredWorld
    = (Normal {| isEligible := true; order := Some openOrder; error := None |},
       configuredWorld, t).
Proof.
  destruct (checkCleanupEligibility_result envUp 0 configuredWorld) as (_ & t & Hrun).
  exists t. exact Hrun.
Defined.

(** ** Further properties of the service *)

(** *** The subscriber registry *)

Lemma set_subscribers_same s : set_subscribers (subscribers s) s = s.
Proof. by destruct s. Qed.

Lemma subscribe_run eventName callback w :
  subscribe eventName callback w =
  (Normal tt,
   with_this (set_subscribers
                (<[eventName := Set_add callback (subscribersOf w eventName)]>
                   (subscribers (this w)))) w,
   []).
Proof.
  unfold subscribe, modify, with_this, subscribersOf. do 3 f_equal.
  destruct (subscribers (this w) !! eventName) as [callbacks|] eqn:E; cbn.
  - by rewrite (alter_alt_Some _ _ _ _ E).
  - by rewrite alter_insert_eq.
Qed.

Lemma unsubscribe_run eventName callback w :
  unsubscribe eventName callback w =
  (Normal tt,
   match subscribers (this w) !! eventName with
   | Some callbacks =>
       with_this (set_subscribers
                    (<[eventName := Set_delete callback callbacks]>
                       (subscribers (this w)))) w
   | None => w
   end,
   []).
Proof.
  unfold unsubscribe, modify, with_this.
  destruct (subscribers (this w) !! eventName) as [callbacks|] eqn:E.
  - by rewrite (alter_alt_Some _ _ _ _ E).
  - by rewrite world_eta.
Qed.

Lemma Set_has_true callback s :
  Set_has callback s = true <-> exists c, c ∈ s /\ cb_id c = cb_id callback.
Proof.
  unfold Set_has. rewrite existsb_exists. split.
  - intros (c & Hin & Heq%Nat.eqb_eq). exists c. by rewrite list_elem_of_In.
  - intros (c & Hin & Heq). exists c. by rewrite <- list_elem_of_In, Nat.eqb_eq.
Qed.

Lemma Set_has_false callback s :
  Set_has callback s = false <-> forall c, c ∈ s -> cb_id c ≠ cb_id callback.
Proof.
  rewrite <- not_true_iff_false, Set_has_true. split.
  - intros Hno c Hin Heq. apply Hno. by exists c.
  - intros Hall (c & Hin & Heq). by apply (Hall c).
Qed.

Lemma Set_add_has callback s :
  exists c, c ∈ Set_add callback s /\ cb_id c = cb_id callback.
Proof.
  unfold Set_add. destruct (Set_has callback s) eqn:E.
  - by apply Set_has_true.
  - exists callback. split; [|done]. apply elem_of_app. right. apply list_elem_of_here.
Qed.

Lemma Set_add_twice callback s :
  Set_add callback (Set_add callback s) = Set_add callback s.
Proof.
  unfold Set_add at 1.
  assert (Set_has callback (Set_add callback s) = true) as ->; [|done].
  apply Set_has_true, Set_add_has.
Qed.

Lemma Set_delete_elem callback s c :
  c ∈ Set_delete callback s <-> c ∈ s /\ cb_id c ≠ cb_id callback.
Proof.
  unfold Set_delete. rewrite !list_elem_of_In, List.filter_In, negb_true_iff.
  by rewrite Nat.eqb_neq.
Qed.

Lemma Set_delete_absent callback s :
  (forall c, c ∈ s -> cb_id c ≠ cb_id callback) -> Set_delete callback s = s.
Proof.
  unfold Set_delete. induction s as [|c rest IH]; [done|]. intros Hall. cbn.
  assert (cb_id c ≠ cb_id callback) as Hc by (apply Hall, list_elem_of_here).
  apply Nat.eqb_neq in Hc as ->. cbn. f_equal. apply IH.
  intros c' Hin. apply Hall. by apply list_elem_of_further.
Qed.

Lemma Set_add_NoDup callback s :
  NoDup (cb_id <$> s) -> NoDup (cb_id <$> Set_add callback s).
Proof.
  unfold Set_add. destruct (Set_has callback s) eqn:E; [done|]. intros Hnd.
  rewrite fmap_app. apply NoDup_app. split_and!; [done| |apply NoDup_singleton].
  intros i (c & -> & Hin)%list_elem_of_fmap [= Heq]%list_elem_of_singleton.
  by apply (proj1 (Set_has_false _ _) E c).
Qed.

Lemma Set_delete_NoDup callback s :
  NoDup (cb_id <$> s) -> NoDup (cb_id <$> Set_delete callback s).
Proof.
  unfold Set_delete. induction s as [|c rest IH]; [done|]. cbn.
  intros [Hc Hnd]%NoDup_cons. destruct (negb _); cbn; [|by apply IH].
  apply NoDup_cons. split; [|by apply IH].
  intros (c' & Heq & Hin)%list_elem_of_fmap. apply Hc.
  apply list_elem_of_fmap. exists c'. split; [done|].
  by apply (Set_delete_elem callback rest c').
Qed.

Lemma traceOf_notifySubscribers eventName data w :
  traceOf (notifySubscribers eventName data) w = notifyTrace w eventName data.
Proof. unfold traceOf. by rewrite notifySubscribers_run. Qed.

(** X1. After [subscribe(eventName, callback)] the callback is registered
    for the event and a publication of the event calls it; subscribing the
    same function again changes nothing; the subscribers of every other event
    name, the cache and the order objects are untouched. *)
Theorem subscribe_registers (eventName : string) (callback : Callback)
    (data : Payload) (w : World) :
  let w1 := worldAfter (subscribe eventName callback) w in
  subscribersOf w1 eventName = Set_add callback (subscribersOf w eventName)
  /\ Call (cb_id callback) data ∈ traceOf (notifySubscribers eventName data) w1
  /\ worldAfter (subscribe eventName callback) w1 = w1
  /\ (forall other, other ≠ eventName ->
        subscribers (this w1) !! other = subscribers (this w) !! other)
  /\ cache w1 = cache w /\ heap w1 = heap w.
Proof.
  cbn zeta. unfold worldAfter. rewrite !subscribe_run. cbn [fst snd].
  assert (forall w0 x,
            subscribersOf (with_this (set_subscribers (<[eventName := x]>
              (subscribers (this w0)))) w0) eventName = x) as Hlook.
  { intros w0 x. unfold subscribersOf. cbn. by rewrite lookup_insert_eq. }
  split_and!.
  - apply Hlook.
  - rewrite traceOf_notifySubscribers.
    assert (Call (cb_id callback) data
            ∈ calls (notifyTrace
                (with_this (set_subscribers
                   (<[eventName := Set_add callback (subscribersOf w eventName)]>
                      (subscribers (this w)))) w) eventName data)) as Hin.
    { rewrite calls_notifyTrace, Hlook.
      destruct (Set_add_has callback (subscribersOf w eventName)) as (c & Hc & Hid).
      apply list_elem_of_fmap. exists c. by rewrite Hid. }
    unfold calls in Hin. apply list_elem_of_In, List.filter_In in Hin as [Hin _].
    by apply list_elem_of_In.
  - rewrite Hlook, Set_add_twice. unfold with_this. cbn.
    by rewrite insert_insert_eq.
  - intros other Hne. cbn. by rewrite lookup_insert_ne.
  - reflexivity.
  - reflexivity.
Qed.

(** X2. The registry keeps set semantics: if no function is registered twice
    for an event name, that still holds after [subscribe] and after
    [unsubscribe], and a publication then calls no callback twice. *)
Theorem registry_stays_a_set (eventName : string) (callback : Callback) (w : World) :
  registryOk w ->
  registryOk (worldAfter (subscribe eventName callback) w)
  /\ registryOk (worldAfter (unsubscribe eventName callback) w)
  /\ (forall name data, NoDup (calls (traceOf (notifySubscribers name data) w))).
Proof.
  intros Hok. unfold worldAfter. rewrite subscribe_run, unsubscribe_run. cbn [fst snd].
  split_and!.
  - intros name callbacks. cbn. destruct (decide (name = eventName)) as [->|Hne].
    + rewrite lookup_insert_eq. intros [= <-]. apply Set_add_NoDup.
      unfold subscribersOf. destruct (subscribers (this w) !! eventName) eqn:E; cbn.
      * by apply (Hok eventName).
      * constructor.
    + rewrite lookup_insert_ne by done. apply Hok.
  - destruct (subscribers (this w) !! eventName) as [cbs|] eqn:E; [|done].
    intros name callbacks. cbn. destruct (decide (name = eventName)) as [->|Hne].
    + rewrite lookup_insert_eq. intros [= <-]. apply Set_delete_NoDup.
      by apply (Hok eventName).
    + rewrite lookup_insert_ne by done. apply Hok.
  - intros name data. rewrite traceOf_notifySubscribers, calls_notifyTrace.
    unfold subscribersOf.
    destruct (subscribers (this w) !! name) as [cbs|] eqn:E; cbn; [|constructor].
    rewrite (list_fmap_compose cb_id (fun i => Call i data)).
    apply NoDup_fmap_2; [|by apply (Hok name)].
    by intros i j [= ->].
Qed.

(** X3. After [unsubscribe(eventName, callback)] a publication of the event
    no longer calls that function, and calls the remaining subscribers in
    their order; unsubscribing from an event name that has no entry, or a
    function that is not registered, leaves the whole state as it is. *)
Theorem unsubscribe_stops_delivery (eventName : string) (callback : Callback)
    (data : Payload) (w : World) :
  let w1 := worldAfter (unsubscribe eventName callback) w in
  (Call (cb_id callback) data ∉ traceOf (notifySubscribers eventName data) w1)
  /\ calls (traceOf (notifySubscribers eventName data) w1) =
     (fun cb => Call (cb_id cb) data) <$> Set_delete callback (subscribersOf w eventName)
  /\ (subscribers (this w) !! eventName = None -> w1 = w)
  /\ ((forall c, c ∈ subscribersOf w eventName -> cb_id c ≠ cb_id callback) -> w1 = w).
Proof.
  cbn zeta. unfold worldAfter. rewrite unsubscribe_run. cbn [fst snd].
  assert (calls (traceOf (notifySubscribers eventName data)
            match subscribers (this w) !! eventName with
            | Some callbacks =>
                with_this (set_subscribers
                  (<[eventName := Set_delete callback callbacks]>
                     (subscribers (this w)))) w
            | None => w
            end) =
          (fun cb => Call (cb_id cb) data)
            <$> Set_delete callback (subscribersOf w eventName)) as Hcalls.
  { rewrite traceOf_notifySubscribers, calls_notifyTrace. unfold subscribersOf.
    destruct (subscribers (this w) !! eventName) as [cbs|] eqn:E; cbn.
    - by rewrite lookup_insert_eq.
    - by rewrite E. }
  split_and!.
  - intros Hin.
    assert (Call (cb_id callback) data
            ∈ (fun cb => Call (cb_id cb) data)
                <$> Set_delete callback (subscribersOf w eventName)) as Hin'.
    { rewrite <- Hcalls. unfold calls.
      apply list_elem_of_In, List.filter_In. split; [by apply list_elem_of_In|done]. }
    apply list_elem_of_fmap in Hin' as (c & [= Hid] & Hc).
    apply Set_delete_elem in Hc as [_ Hne]. by apply Hne.
  - exact Hcalls.
  - by intros ->.
  - intros Hall. unfold subscribersOf in Hall.
    destruct (subscribers (this w) !! eventName) as [cbs|] eqn:E; [|done].
    rewrite Set_delete_absent by exact Hall.
    unfold with_this. by rewrite insert_id, set_subscribers_same, world_eta.
Qed.

(** *** Removal *)

Lemma get_deleteAll {V} (ids : list Z) (m : list (Z * V)) (k : Z) :
  JsMap.get k (foldl (fun m i => JsMap.delete i m) m ids) =
  if bool_decide (k ∈ ids) then None else JsMap.get k m.
Proof.
  revert m. induction ids as [|i rest IH]; intros m; [done|]. cbn. rewrite IH.
  destruct (decide (i = k)) as [->|Hne].
  - rewrite get_delete_eq. rewrite (bool_decide_eq_true_2 (k ∈ k :: rest))
      by apply list_elem_of_here. by case_bool_decide.
  - rewrite get_delete_ne by done. apply (f_equal (fun b : bool => if b then _ else _)).
    apply bool_decide_ext. rewrite elem_of_cons. intuition congruence.
Qed.

(** X4. [removeOrders] with an array removes exactly the listed ids from the
    cache (ids that are not cached are skipped without error), touches no
    order object, and publishes "ordersUpdated" once with the remaining
    records, as [getOrders()] lists them; with an argument that is not an
    array it only warns: the state is unchanged and nothing is published. *)
Theorem removeOrders_removes (ids : list Z) (w : World) :
  (exists w' t,
     removeOrders (IdArray ids) w = (Normal tt, w', t)
     /\ (forall k, JsMap.get k (cache w') =
                   if bool_decide (k ∈ ids) then None else JsMap.get k (cache w))
     /\ heap w' = heap w
     /\ subscribers (this w') = subscribers (this w)
     /\ notifications t = [Notify "ordersUpdated" (POrders (JsMap.values (cache w')))]
     /\ completionOf (getOrders None) w' = Normal (JsMap.values (cache w')))
  /\ removeOrders NotAnArray w =
     (Normal tt, w, [Warn "[WebSocket] removeOrders called with non-array:"]).
Proof.
  split; [|reflexivity].
  rewrite removeOrders_run. cbn zeta. eexists _, _. split; [reflexivity|].
  split_and!; try reflexivity.
  - intros k. unfold cache. cbn. apply get_deleteAll.
  - simpl_trace. by rewrite notifications_notifyTrace.
Qed.

(** *** Cleanup eligibility, in milliseconds *)

(** X5. When the record is fetched, [checkCleanupEligibility] reports it
    eligible exactly from the millisecond at which a full 1209601 seconds
    (14 days and one second) have passed since the record's timestamp:
    [Date.now() >= 1000 * (timestamp + 1209601)].  An order that is exactly
    14 days old is not eligible, and an eligible order stays eligible as the
    clock advances. *)
Theorem eligibility_threshold (env : Env) (orderId : Z) (w : World)
    (contract : Contract) (record : Order.t) :
  Contract_new env (contractAddress (this w)) (contractABI (this w)) (provider (this w))
    = inr contract ->
  orders contract orderId = inr record ->
  exists r,
    completionOf (checkCleanupEligibility env orderId) w = Normal r
    /\ order r = Some record
    /\ (isEligible r = true <->
        (Date_now env >= 1000 * (Order.timestamp record + 1209601))%Z).
Proof.
  intros Hnew Hfetch. unfold completionOf, checkCleanupEligibility. unfold_M. cbn.
  rewrite Hnew. cbn. rewrite Hfetch. cbn. eexists. split; [reflexivity|].
  split; [reflexivity|]. cbn. rewrite bool_decide_eq_true.
  change totalExpiry with 1209600%Z. Z.div_mod_to_equations. lia.
Qed.

(** *** The retry chain *)

Lemma initialize_fuel_profile fuel envs w :
  attemptsLeft w < fuel ->
  exists b w' t,
    initialize_fuel fuel envs w = (Normal b, w', t)
    /\ length (timeouts t) <= attemptsLeft w
    /\ maxReconnectAttempts (this w') = maxReconnectAttempts (this w)
    /\ (b = false ->
        isInitialized (this w') = false
        /\ (reconnectAttempts (this w') >= maxReconnectAttempts (this w'))%Z
        /\ cache w' = cache w /\ heap w' = heap w
        /\ subscribers (this w') = subscribers (this w)
        /\ notifications t = [])
    /\ (b = true -> isInitialized (this w') = true).
Proof.
  revert envs w. induction fuel as [|fuel IH]; intros envs w Hfuel; [lia|].
  cbn [initialize_fuel]. unfold try_catch.
  destruct (isInitialized (this w)) eqn:Hinit.
  { rewrite initialize_body_done by done. eexists _, _, _. split; [reflexivity|].
    cbn. split_and!; [lia|done|done|done]. }
  pose proof (initialize_body_run (envs O) w Hinit) as Hrun.
  destruct (connect (envs O)) as [e|[[config p] contract]].
  - destruct Hrun as (w1 & t1 & -> & Hframe & Hheap & Hn1 & _ & Ht1).
    apply set_provider_None_fields in Hframe as (Ha & Hm & _ & Hi & Hc & Hs).
    rewrite bind_eq. cbn [debug emit].
    destruct (decide (reconnectAttempts (this w1) < maxReconnectAttempts (this w1))%Z)
      as [Hlt|Hge].
    + rewrite reconnect_with_retry by done.
      pose proof (attemptsLeft_bumped w1 Hlt) as Hleft.
      assert (attemptsLeft w1 = attemptsLeft w) as Hsame
        by (unfold attemptsLeft; by rewrite Ha, Hm).
      destruct (IH (fun k => envs (S k)) (bumped w1))
        as (b & w' & t & -> & Hlen & Hmax & Hfalse & Htrue); [lia|].
      eexists _, _, _. split; [reflexivity|]. split_and!.
      * simpl_trace. rewrite Ht1. cbn. lia.
      * rewrite Hmax. cbn. exact Hm.
      * intros ->. destruct (Hfalse eq_refl) as (Hi' & Hge' & Hc' & Hh' & Hs' & Hn').
        split_and!.
        -- exact Hi'.
        -- exact Hge'.
        -- rewrite Hc'. unfold cache. cbn. exact Hc.
        -- rewrite Hh'. cbn. exact Hheap.
        -- rewrite Hs'. cbn. exact Hs.
        -- simpl_trace. by rewrite Hn1, Hn'.
      * exact Htrue.
    + rewrite reconnect_with_exhausted by lia.
      eexists _, _, _. split; [reflexivity|]. split_and!.
      * simpl_trace. rewrite Ht1. cbn. lia.
      * exact Hm.
      * intros _. split_and!.
        -- congruence.
        -- lia.
        -- unfold cache. exact Hc.
        -- exact Hheap.
        -- exact Hs.
        -- simpl_trace. by rewrite Hn1.
      * done.
  - destruct Hrun as (t & -> & _ & Ht).
    eexists _, _, _. split; [reflexivity|]. rewrite Ht. cbn.
    split_and!; [lia|done|done|done].
Qed.

(** X6. [initialize] always returns a boolean, after at most
    [maxReconnectAttempts - reconnectAttempts] timers.  When it returns
    [false] the service is not initialized, the counter has reached the
    maximum, nothing was published, and the cache, the order objects and the
    subscribers are as before the call; when it returns [true] the service
    is initialized. *)
Theorem initialize_bounded_retries (envs : nat -> Env) (w : World) :
  exists b w' t,
    initialize envs w = (Normal b, w', t)
    /\ length (timeouts t) <= attemptsLeft w
    /\ (b = false ->
        isInitialized (this w') = false
        /\ (reconnectAttempts (this w') >= maxReconnectAttempts (this w'))%Z
        /\ cache w' = cache w /\ heap w' = heap w
        /\ subscribers (this w') = subscribers (this w)
        /\ notifications t = [])
    /\ (b = true -> isInitialized (this w') = true).
Proof.
  destruct (initialize_fuel_profile (S (attemptsLeft w)) envs w)
    as (b & w' & t & Hrun & Hlen & _ & Hfalse & Htrue); [lia|].
  by exists b, w', t.
Qed.

Lemma backoffSchedule_cons delay from max :
  (from < max)%Z ->
  backoffSchedule delay from max =
  SetTimeout (delay * 2 ^ from)%Z :: backoffSchedule delay (from + 1) max.
Proof.
  intros Hlt. unfold backoffSchedule. rewrite seqZ_cons by lia. cbn.
  do 3 f_equal; lia.
Qed.

Lemma backoffSchedule_nil delay from max :
  (max <= from)%Z -> backoffSchedule delay from max = [].
Proof. intros Hle. unfold backoffSchedule. by rewrite seqZ_nil by lia. Qed.

Lemma allDown_tail envs : allDown envs -> allDown (fun k => envs (S k)).
Proof. intros H k. apply (H (S k)). Qed.

Lemma initialize_fuel_allDown fuel envs w :
  attemptsLeft w < fuel ->
  allDown envs ->
  isInitialized (this w) = false ->
  (0 <= reconnectAttempts (this w) <= maxReconnectAttempts (this w))%Z ->
  exists w' t,
    initialize_fuel fuel envs w = (Normal false, w', t)
    /\ timeouts t =
       backoffSchedule (reconnectDelay (this w)) (reconnectAttempts (this w))
         (maxReconnectAttempts (this w))
    /\ reconnectAttempts (this w') = maxReconnectAttempts (this w).
Proof.
  revert envs w. induction fuel as [|fuel IH]; intros envs w Hfuel Hdown Hinit Hrange;
    [lia|].
  cbn [initialize_fuel]. unfold try_catch.
  pose proof (initialize_body_run (envs O) w Hinit) as Hrun.
  destruct (Hdown O) as [e He]. rewrite He in Hrun.
  destruct Hrun as (w1 & t1 & -> & Hframe & _ & _ & _ & Ht1).
  apply set_provider_None_fields in Hframe as (Ha & Hm & Hd & Hi & _).
  rewrite bind_eq. cbn [debug emit].
  destruct (decide (reconnectAttempts (this w1) < maxReconnectAttempts (this w1))%Z)
    as [Hlt|Hge].
  - rewrite reconnect_with_retry by done.
    pose proof (attemptsLeft_bumped w1 Hlt) as Hleft.
    assert (attemptsLeft w1 = attemptsLeft w) as Hsame
      by (unfold attemptsLeft; by rewrite Ha, Hm).
    destruct (IH (fun k => envs (S k)) (bumped w1)) as (w' & t & -> & Ht & Hfinal).
    + lia.
    + by apply allDown_tail.
    + cbn. congruence.
    + cbn. lia.
    + eexists _, _. split; [reflexivity|]. split.
      * simpl_trace. rewrite Ht1, Ht. cbn.
        rewrite (backoffSchedule_cons _ (reconnectAttempts (this w))) by lia.
        unfold backoffDelay, Math_pow. cbn. rewrite Ha, Hm, Hd.
        by rewrite Z.add_simpl_r.
      * rewrite Hfinal. cbn. exact Hm.
  - rewrite reconnect_with_exhausted by lia.
    eexists _, _. split; [reflexivity|]. split.
    + simpl_trace. rewrite Ht1. cbn. by rewrite backoffSchedule_nil by lia.
    + lia.
Qed.

(** X7. When every connection attempt fails, an [initialize] that starts
    uninitialized with the counter at [a] (between 0 and the maximum [m])
    returns [false] after waiting exactly [delay * 2^a], [delay * 2^(a+1)],
    ..., [delay * 2^(m-1)], in that order, and leaves the counter at [m]. *)
Theorem initialize_backoff_schedule (envs : nat -> Env) (w : World) :
  allDown envs ->
  isInitialized (this w) = false ->
  (0 <= reconnectAttempts (this w) <= maxReconnectAttempts (this w))%Z ->
  exists w' t,
    initialize envs w = (Normal false, w', t)
    /\ timeouts t =
       backoffSchedule (reconnectDelay (this w)) (reconnectAttempts (this w))
         (maxReconnectAttempts (this w))
    /\ reconnectAttempts (this w') = maxReconnectAttempts (this w).
Proof.
  intros Hdown Hinit Hrange. apply initialize_fuel_allDown; [lia|done..].
Qed.

(** X8. On a service that has completed [initialize] (with a non-negative
    attempt counter), the "disconnect" listener never resynchronises: it returns with the service still marked
    initialized, the cache and the order objects unchanged, nothing
    published and no listener registered.  Below the maximum it counts one
    attempt (the counter is not reset afterwards) and sets one timer of
    [delay * 2^attempts]; at the maximum it changes nothing and sets no
    timer. *)
Theorem disconnect_when_ready (envs : nat -> Env) (e : Error) (w : World) :
  isInitialized (this w) = true ->
  (0 <= reconnectAttempts (this w))%Z ->
  exists w' t,
    onDisconnect envs e w = (Normal tt, w', t)
    /\ isInitialized (this w') = true
    /\ cache w' = cache w /\ heap w' = heap w
    /\ notifications t = [] /\ listens t = []
    /\ ((reconnectAttempts (this w) < maxReconnectAttempts (this w))%Z ->
        reconnectAttempts (this w') = (reconnectAttempts (this w) + 1)%Z
        /\ timeouts t =
           [SetTimeout (reconnectDelay (this w) * 2 ^ reconnectAttempts (this w))%Z])
    /\ ((reconnectAttempts (this w) >= maxReconnectAttempts (this w))%Z ->
        w' = w /\ timeouts t = []).
Proof.
  intros Hinit Hpos.
  destruct (decide (reconnectAttempts (this w) < maxReconnectAttempts (this w))%Z)
    as [Hlt|Hge].
  - rewrite onDisconnect_when_initialized by done.
    eexists _, _. split; [reflexivity|]. cbn.
    split_and!; try done; try (intros; lia).
    intros _. split; [done|]. unfold backoffDelay, Math_pow. cbn.
    by rewrite Z.add_simpl_r.
  - unfold onDisconnect. rewrite bind_eq. cbn [debug emit]. rewrite bind_eq.
    unfold reconnect. rewrite reconnect_with_exhausted by lia. cbn.
    eexists _, _. split; [reflexivity|].
    split_and!; try done; try (intros; lia).
Qed.

(** *** Listener registration *)

Ltac simpl_listens :=
  cbn [app];
  unfold listens;
  repeat (progress (cbn [List.filter is_listen]; rewrite ?List.filter_app));
  change (List.filter is_listen) with listens.

Lemma listens_callbackTrace h data callback :
  listens (callbackTrace h data callback) = [].
Proof. unfold callbackTrace. by destruct (cb_body callback h data). Qed.

Lemma listens_notifyTrace w eventName data :
  listens (notifyTrace w eventName data) = [].
Proof.
  unfold notifyTrace. simpl_listens.
  destruct (subscribers (this w) !! eventName) as [callbacks|]; [|reflexivity].
  simpl_listens. induction callbacks as [|cb rest IH]; [reflexivity|].
  cbn [fmap list_fmap concat]. simpl_listens. by rewrite listens_callbackTrace, IH.
Qed.

Lemma traceOf_bind {A B} (m : M A) (k : A -> M B) w a w1 t1 :
  m w = (Normal a, w1, t1) ->
  traceOf (m ≫= k) w = t1 ++ traceOf (k a) w1.
Proof.
  intros Hm. unfold traceOf. rewrite bind_eq, Hm. by destruct (k a w1) as [[r w2] t2].
Qed.

Lemma forEach_syncOne_listens contract ids w :
  listens (traceOf (forEach ids (syncOne contract)) w) = [].
Proof.
  revert w. induction ids as [|i rest IH]; intros w; [reflexivity|].
  cbn [forEach]. pose proof (syncOne_run contract i w) as Hone.
  destruct (orders contract i) as [e|o]; [|destruct (isOpen o)];
    rewrite (traceOf_bind _ _ _ _ _ _ Hone); simpl_listens; apply IH.
Qed.

Lemma syncAllOrders_listens contract w :
  listens (traceOf (syncAllOrders contract) w) = [].
Proof.
  destruct contract as [c|].
  - unfold traceOf, syncAllOrders.
    unfold try_catch at 1. rewrite bind_eq. cbn [mret M_ret ret].
    rewrite bind_eq. cbn [debug emit]. rewrite bind_eq, queryBound_run.
    rewrite bind_eq. cbn [cache_clear modify]. rewrite bind_eq.
    match goal with |- context [forEach ?ids _ ?w1] =>
      pose proof (forEach_syncOne_listens c ids w1) as Hloop;
      destruct (forEach_syncOne c ids w1) as (t & Hrun & _) end.
    unfold traceOf in Hloop. rewrite Hrun in Hloop |- *. cbn [fst snd] in Hloop.
    rewrite bind_eq. cbn [gets]. rewrite bind_eq. cbn [debug emit].
    rewrite bind_eq. cbn [gets]. rewrite notifySubscribers_run. cbn [fst snd].
    destruct (nextOrderId c); simpl_listens; by rewrite Hloop, listens_notifyTrace.
  - unfold traceOf. rewrite syncAllOrders_None. cbn [fst snd]. simpl_listens.
    apply listens_notifyTrace.
Qed.

(** The registrations of a complete listener setup, in order. *)
Lemma setupEventListeners_listens contract w :
  exists t,
    setupEventListeners contract w = (Normal tt, w, t)
    /\ listens t =
       match provider (this w), filters_OrderCreated contract with
       | None, _ => []
       | Some _, inl _ =>
           [Listen "provider" "connect"; Listen "provider" "disconnect"]
       | Some _, inr _ =>
           [Listen "provider" "connect"; Listen "provider" "disconnect";
            Listen "provider" "block"; Listen "contract" "OrderCreated";
            Listen "contract" "OrderFilled"; Listen "contract" "OrderCanceled"]
       end.
Proof.
  unfold setupEventListeners. unfold_M. cbn.
  destruct (provider (this w)); cbn; [|by eexists].
  destruct (filters_OrderCreated contract) as [e|[]]; cbn; by eexists.
Qed.

Lemma connect_inr env config p contract :
  connect env = inr (config, p, contract) ->
  getNetworkConfig env = inr config
  /\ WebSocketProvider_new env (wsUrl config) = inr p
  /\ provider_ready env p = inr tt
  /\ Contract_new env (Some (config_contractAddress config))
       (Some (config_contractABI config)) (Some p) = inr contract.
Proof.
  unfold connect.
  destruct (getNetworkConfig env) as [|config'] eqn:H1; [done|].
  destruct (WebSocketProvider_new env (wsUrl config')) as [|p'] eqn:H2; [done|].
  destruct (provider_ready env p') as [|[]] eqn:H3; [done|].
  destruct (Contract_new env _ _ (Some p')) as [|c'] eqn:H4; [done|].
  intros Heq. injection Heq as <- <- <-. done.
Qed.

Lemma initialize_body_listens env w config p contract :
  isInitialized (this w) = false ->
  connect env = inr (config, p, contract) ->
  listens (traceOf (initialize_body env) w) =
  match filters_OrderCreated contract with
  | inl _ => [Listen "provider" "connect"; Listen "provider" "disconnect"]
  | inr _ =>
      [Listen "provider" "connect"; Listen "provider" "disconnect";
       Listen "provider" "block"; Listen "contract" "OrderCreated";
       Listen "contract" "OrderFilled"; Listen "contract" "OrderCanceled"]
  end.
Proof.
  intros Hinit (Hcfg & Hp & Hready & Hc)%connect_inr.
  unfold traceOf, initialize_body.
  rewrite bind_eq. cbn [gets]. rewrite Hinit.
  rewrite bind_eq. cbn [debug emit]. rewrite bind_eq, Hcfg.
  cbn [await mret M_ret ret].
  rewrite bind_eq. cbn [debug emit]. rewrite bind_eq, Hp. cbn [await mret M_ret ret].
  rewrite bind_eq. cbn [modify]. rewrite bind_eq, Hready. cbn [await mret M_ret ret].
  rewrite bind_eq. cbn [debug emit]. rewrite bind_eq. cbn [gets].
  cbn [with_this this provider set_provider]. rewrite bind_eq, Hc.
  cbn [await mret M_ret ret].
  rewrite bind_eq. cbn [debug emit]. rewrite bind_eq.
  pose proof (syncAllOrders_listens (Some contract)
                (with_this (set_provider (Some p)) w)) as Hsync.
  destruct (syncAllOrders_Some contract (with_this (set_provider (Some p)) w))
    as (t1 & E1 & _).
  unfold traceOf in Hsync. rewrite E1 in Hsync. cbn [fst snd] in Hsync.
  unfold with_this in E1 |- *. cbn [this heap] in E1 |- *. rewrite E1.
  rewrite bind_eq. cbn [debug emit]. rewrite bind_eq.
  match goal with |- context [setupEventListeners contract ?w1] =>
    destruct (setupEventListeners_listens contract w1) as (t2 & -> & Hl2) end.
  cbn [rebuilt this provider set_provider set_orderCache] in Hl2.
  rewrite bind_eq. cbn [modify]. rewrite bind_eq. cbn [debug emit].
  rewrite bind_eq. cbn [modify mret M_ret ret].
  cbn [fst snd]. simpl_listens. rewrite Hsync, Hl2.
  by destruct (filters_OrderCreated contract).
Qed.

(** X9. [setupEventListeners] never throws and changes no state.  With a
    provider it registers, in order, the provider's "connect" and
    "disconnect" listeners, then the "block" listener and the contract's
    three order listeners; when creating the OrderCreated filter throws, the
    error is swallowed after the first two registrations, so no contract
    listener is registered.  An [initialize] whose connection succeeds
    returns [true] and marks the service initialized in both cases. *)
Theorem setupEventListeners_swallows (envs : nat -> Env) (w : World)
    (config : NetworkConfig) (p : Provider) (contract : Contract) :
  (exists t,
     setupEventListeners contract w = (Normal tt, w, t)
     /\ listens t =
        match provider (this w), filters_OrderCreated contract with
        | None, _ => []
        | Some _, inl _ =>
            [Listen "provider" "connect"; Listen "provider" "disconnect"]
        | Some _, inr _ =>
            [Listen "provider" "connect"; Listen "provider" "disconnect";
             Listen "provider" "block"; Listen "contract" "OrderCreated";
             Listen "contract" "OrderFilled"; Listen "contract" "OrderCanceled"]
        end)
  /\ (isInitialized (this w) = false ->
      connect (envs O) = inr (config, p, contract) ->
      completionOf (initialize envs) w = Normal true
      /\ isInitialized (this (worldAfter (initialize envs) w)) = true
      /\ listens (traceOf (initialize envs) w) =
         match filters_OrderCreated contract with
         | inl _ => [Listen "provider" "connect"; Listen "provider" "disconnect"]
         | inr _ =>
             [Listen "provider" "connect"; Listen "provider" "disconnect";
              Listen "provider" "block"; Listen "contract" "OrderCreated";
              Listen "contract" "OrderFilled"; Listen "contract" "OrderCanceled"]
         end).
Proof.
  split; [apply setupEventListeners_listens|].
  intros Hinit Hconn.
  pose proof (initialize_body_run (envs O) w Hinit) as Hrun.
  pose proof (initialize_body_listens (envs O) w _ _ _ Hinit Hconn) as Hl.
  rewrite Hconn in Hrun. destruct Hrun as (t & Hrun & _).
  unfold completionOf, worldAfter, traceOf, initialize in *.
  cbn [initialize_fuel]. unfold try_catch. rewrite Hrun in Hl |- *.
  cbn [fst snd] in Hl |- *. by rewrite Hl.
Qed.

(** *** Forwarding without isolation *)

Lemma forEach_call_quiet data callbacks w :
  Forall (fun c => cb_body c (heap w) data = None) callbacks ->
  forEach callbacks (fun callback => call callback data) w =
  (Normal tt, w, (fun cb => Call (cb_id cb) data) <$> callbacks).
Proof.
  induction 1 as [|c rest Hc Hrest IH]; [reflexivity|].
  cbn [forEach]. rewrite bind_eq. unfold call at 1. unfold_M. cbn. rewrite Hc.
  by rewrite IH.
Qed.

Lemma forEach_call_throws data pre c post err w :
  Forall (fun c' => cb_body c' (heap w) data = None) pre ->
  cb_body c (heap w) data = Some err ->
  forEach (pre ++ c :: post) (fun callback => call callback data) w =
  (Throw err, w, (fun cb => Call (cb_id cb) data) <$> (pre ++ [c])).
Proof.
  intros Hpre Hc. induction Hpre as [|c' rest Hc' Hrest IH].
  - cbn [app forEach]. rewrite bind_eq. unfold call. unfold_M. cbn. by rewrite Hc.
  - cbn [app forEach]. rewrite bind_eq. unfold call at 1. unfold_M. cbn. rewrite Hc'.
    by rewrite IH.
Qed.

(** X10. [listenToContractEvents] throws "WebSocket not initialized" and
    registers nothing when there is no provider.  The listener it registers
    calls the subscribers of the event in order without catching: when none
    throws all are called and it returns; when one throws, the subscribers
    before it and the thrower have been called, the ones after it are never
    called, and the error propagates to the event emitter.  The state is
    unchanged either way. *)
Theorem forwardEvent_not_isolated (eventName : string) (event : Payload) (w : World) :
  (provider (this w) = None ->
   listenToContractEvents eventName w = (Throw "WebSocket not initialized", w, []))
  /\ (provider (this w) ≠ None ->
      listenToContractEvents eventName w = (Normal tt, w, [Listen "contract" eventName]))
  /\ (Forall (fun c => cb_body c (heap w) event = None) (subscribersOf w eventName) ->
      forwardEvent eventName event w =
      (Normal tt, w, (fun cb => Call (cb_id cb) event) <$> subscribersOf w eventName))
  /\ (forall pre c post err,
        subscribersOf w eventName = pre ++ c :: post ->
        Forall (fun c' => cb_body c' (heap w) event = None) pre ->
        cb_body c (heap w) event = Some err ->
        forwardEvent eventName event w =
        (Throw err, w, (fun cb => Call (cb_id cb) event) <$> (pre ++ [c]))).
Proof.
  split_and!.
  - intros Hp. unfold listenToContractEvents. unfold_M. by rewrite Hp.
  - intros Hp. unfold listenToContractEvents. unfold_M.
    by destruct (provider (this w)).
  - unfold forwardEvent, subscribersOf. rewrite bind_eq. cbn [gets].
    destruct (subscribers (this w) !! eventName) as [cbs|]; cbn; [|done].
    intros Hall. by rewrite forEach_call_quiet.
  - intros pre c post err. unfold forwardEvent, subscribersOf.
    rewrite bind_eq. cbn [gets].
    destruct (subscribers (this w) !! eventName) as [cbs|]; cbn.
    + intros -> Hpre Hc. by rewrite (forEach_call_throws _ _ _ _ err).
    + intros Hnil. by destruct pre.
Qed.

(** *** What a resync shows *)

Lemma values_entriesFrom n (kept : list (Z * Order.t)) :
  JsMap.values (entriesFrom n kept) = seq n (length kept).
Proof.
  unfold JsMap.values, entriesFrom. apply snd_zip.
  rewrite length_seq, length_fmap. lia.
Qed.

Lemma view_fresh (h objs : list OrderData.t) :
  view (h ++ objs) (seq (length h) (length objs)) = Some <$> objs.
Proof.
  revert h. induction objs as [|o rest IH]; intros h; [reflexivity|].
  cbn. rewrite list_lookup_middle by done. f_equal.
  specialize (IH (h ++ [o])).
  rewrite length_app, Nat.add_1_r, <- app_assoc in IH. exact IH.
Qed.

Lemma view_rebuilt contract w :
  view (heap (rebuilt contract w)) (JsMap.values (cache (rebuilt contract w))) =
  Some <$> objectsOf (fetched contract).
Proof.
  unfold rebuilt, cache. cbn [this heap orderCache set_orderCache].
  rewrite values_entriesFrom.
  replace (length (fetched contract)) with (length (objectsOf (fetched contract)))
    by (unfold objectsOf; apply length_fmap).
  apply view_fresh.
Qed.

Lemma seqZ_sorted m n : StronglySorted Z.lt (seqZ m n).
Proof.
  destruct (decide (n <= 0)%Z) as [Hn|Hn]; [rewrite seqZ_nil by done; constructor|].
  replace n with (Z.of_nat (Z.to_nat n)) by lia.
  generalize (Z.to_nat n) as k. clear. intros k. revert m.
  induction k as [|k IH]; intros m; [constructor|].
  rewrite seqZ_cons by lia. constructor.
  - replace (Z.pred (Z.of_nat (S k))) with (Z.of_nat k) by lia. apply IH.
  - apply Forall_forall. intros x Hx%elem_of_seqZ. lia.
Qed.

Lemma keptOf_keys_sorted contract ids :
  StronglySorted Z.lt ids -> StronglySorted Z.lt (keptOf contract ids).*1.
Proof.
  induction 1 as [|i rest Hrest IH Hi]; [constructor|].
  rewrite keptOf_cons. destruct (keep contract i) as [[k o]|] eqn:E; [|exact IH].
  apply keep_key in E as ->. cbn. constructor; [exact IH|].
  apply Forall_forall. intros x Hx%keptOf_keys_sub.
  by apply (proj1 (Forall_forall _ _) Hi).
Qed.

Lemma worldAfter_sync contract w :
  worldAfter (syncAllOrders (Some contract)) w = rebuilt contract w.
Proof.
  unfold worldAfter. by destruct (syncAllOrders_Some contract w) as (t & -> & _).
Qed.

(** X11. What a full resync leaves depends on the ledger only: whatever the
    state before, the cache lists the kept ids in strictly ascending order,
    every reference points to an order object, and [getOrders()] shows the
    same records.  In particular a second resync against the same ledger
    shows what the first one showed. *)
Theorem resync_depends_on_ledger_only (contract : Contract) (w w0 : World) :
  let w1 := worldAfter (syncAllOrders (Some contract)) w in
  let w2 := worldAfter (syncAllOrders (Some contract)) w0 in
  StronglySorted Z.lt (cache w1).*1
  /\ wf w1
  /\ (cache w2).*1 = (cache w1).*1
  /\ view (heap w2) (JsMap.values (cache w2)) = view (heap w1) (JsMap.values (cache w1))
  /\ view (heap (worldAfter (syncAllOrders (Some contract)) w1))
       (JsMap.values (cache (worldAfter (syncAllOrders (Some contract)) w1)))
     = view (heap w1) (JsMap.values (cache w1)).
Proof.
  cbn zeta. rewrite !worldAfter_sync. split_and!.
  - unfold rebuilt, cache. cbn. rewrite entriesFrom_keys.
    apply keptOf_keys_sorted, seqZ_sorted.
  - apply wf_rebuilt.
  - unfold rebuilt, cache. cbn. by rewrite !entriesFrom_keys.
  - by rewrite !view_rebuilt.
  - by rewrite !view_rebuilt.
Qed.

(** *** Upserts and transitions *)

Lemma set_keys {V} (k : Z) (v : V) (m : list (Z * V)) :
  (JsMap.set k v m).*1 =
  match JsMap.get k m with Some _ => m.*1 | None => m.*1 ++ [k] end.
Proof.
  induction m as [|[k' v'] rest IH]; [done|]. cbn.
  case_bool_decide as Hk; cbn; [by subst|].
  rewrite IH. by destruct (JsMap.get k rest).
Qed.

Lemma worldAfter_created k maker taker sellToken sellAmount buyToken buyAmount
    timestamp fee w :
  worldAfter (handle (OrderCreated k maker taker sellToken sellAmount buyToken
                        buyAmount timestamp fee)) w =
  upserted k (createdOrder k maker taker sellToken sellAmount buyToken buyAmount
                timestamp fee) w.
Proof.
  unfold worldAfter. cbn [handle].
  by destruct (onOrderCreated_run k maker taker sellToken sellAmount buyToken
                 buyAmount timestamp fee w) as (t & -> & _).
Qed.

Lemma recordOf_upserted_eq k o w : recordOf (upserted k o w) k = Some o.
Proof.
  unfold recordOf, upserted, cache. cbn [this heap orderCache set_orderCache].
  rewrite get_set_eq. cbn. by rewrite list_lookup_middle.
Qed.

(** X12. An OrderCreated event upserts: afterwards the id maps to a new
    object holding exactly the event's fields, with status "Active" and no
    [tries]; an id that was cached keeps its place in the cache order, a new
    id goes to the end; the entries of all other ids and every existing
    order object are untouched; and "OrderCreated" is published exactly once,
    with the new object. *)
Theorem OrderCreated_upserts (orderId : Z) (maker taker sellToken : Address)
    (sellAmount : Z) (buyToken : Address) (buyAmount timestamp fee : Z) (w : World) :
  let ev := OrderCreated orderId maker taker sellToken sellAmount buyToken
              buyAmount timestamp fee in
  let w1 := worldAfter (handle ev) w in
  recordOf w1 orderId =
    Some {| OrderData.id := orderId; OrderData.maker := maker;
            OrderData.taker := taker; OrderData.sellToken := sellToken;
            OrderData.sellAmount := sellAmount; OrderData.buyToken := buyToken;
            OrderData.buyAmount := buyAmount; OrderData.timestamp := timestamp;
            OrderData.orderCreationFee := fee; OrderData.status := "Active";
            OrderData.tries := None |}
  /\ (cache w1).*1 =
     match JsMap.get orderId (cache w) with
     | Some _ => (cache w).*1
     | None => (cache w).*1 ++ [orderId]
     end
  /\ (forall k, k ≠ orderId -> JsMap.get k (cache w1) = JsMap.get k (cache w))
  /\ (forall l o, heap w !! l = Some o -> heap w1 !! l = Some o)
  /\ notifications (traceOf (handle ev) w) =
     [Notify "OrderCreated" (POrder (length (heap w)))]
  /\ JsMap.get orderId (cache w1) = Some (length (heap w)).
Proof.
  cbn zeta. rewrite worldAfter_created. split_and!.
  - apply recordOf_upserted_eq.
  - unfold upserted, cache. cbn [this orderCache set_orderCache]. apply set_keys.
  - intros k Hne. unfold upserted, cache. cbn [this orderCache set_orderCache].
    by apply get_set_ne.
  - intros l o Hl. unfold upserted. cbn [heap]. by apply lookup_app_l_Some.
  - unfold traceOf. cbn [handle].
    by destruct (onOrderCreated_run orderId maker taker sellToken sellAmount
                   buyToken buyAmount timestamp fee w) as (t & -> & Hn).
  - unfold upserted, cache. cbn [this orderCache set_orderCache]. apply get_set_eq.
Qed.

Lemma recordOf_transitioned status l w k :
  JsMap.get k (cache w) = Some l ->
  recordOf (transitioned status l w) k = OrderData.set_status status <$> recordOf w k.
Proof.
  unfold recordOf, transitioned, cache. cbn [this heap]. intros ->.
  cbn [mbind option_bind]. apply list_lookup_alter_eq.
Qed.

(** X13. Creation followed by a fill or a cancellation of the same id: the
    cache then shows the created record with status "Filled" (respectively
    "Canceled") and all other fields as created, and the handler publishes
    "OrderFilled" (respectively "OrderCanceled") exactly once, with the
    object the creation allocated. *)
Theorem created_then_closed (orderId : Z) (maker taker sellToken : Address)
    (sellAmount : Z) (buyToken : Address) (buyAmount timestamp fee : Z) (w : World) :
  let o := createdOrder orderId maker taker sellToken sellAmount buyToken
             buyAmount timestamp fee in
  let w1 := worldAfter (handle (OrderCreated orderId maker taker sellToken sellAmount
                                  buyToken buyAmount timestamp fee)) w in
  recordOf (worldAfter (handle (OrderFilled orderId)) w1) orderId
    = Some (OrderData.set_status "Filled" o)
  /\ notifications (traceOf (handle (OrderFilled orderId)) w1)
     = [Notify "OrderFilled" (POrder (length (heap w)))]
  /\ recordOf (worldAfter (handle (OrderCanceled orderId)) w1) orderId
     = Some (OrderData.set_status "Canceled" o)
  /\ notifications (traceOf (handle (OrderCanceled orderId)) w1)
     = [Notify "OrderCanceled" (POrder (length (heap w)))].
Proof.
  cbn zeta. rewrite worldAfter_created.
  set (o := createdOrder _ _ _ _ _ _ _ _ _).
  assert (JsMap.get orderId (cache (upserted orderId o w)) = Some (length (heap w)))
    as Hget.
  { unfold upserted, cache. cbn [this orderCache set_orderCache]. apply get_set_eq. }
  unfold worldAfter, traceOf. cbn [handle].
  rewrite (onOrderFilled_present _ _ _ Hget), (onOrderCanceled_present _ _ _ Hget).
  cbn [fst snd]. split_and!.
  - by rewrite (recordOf_transitioned _ _ _ _ Hget), recordOf_upserted_eq.
  - simpl_trace. by rewrite notifications_notifyTrace.
  - by rewrite (recordOf_transitioned _ _ _ _ Hget), recordOf_upserted_eq.
  - by rewrite notifications_notifyTrace.
Qed.

(** *** Invariants of the cache *)

Lemma set_keys_NoDup {V} (k : Z) (v : V) (m : list (Z * V)) :
  NoDup m.*1 -> NoDup (JsMap.set k v m).*1.
Proof.
  intros Hnd. rewrite set_keys. destruct (JsMap.get k m) eqn:E; [done|].
  apply NoDup_app. split_and!; [done| |apply NoDup_singleton].
  intros x Hx ->%list_elem_of_singleton. by apply get_None_not_key in E.
Qed.

Lemma delete_keys_NoDup {V} (k : Z) (m : list (Z * V)) :
  NoDup m.*1 -> NoDup (JsMap.delete k m).*1.
Proof.
  unfold JsMap.delete. induction m as [|[k' v'] rest IH]; [done|]. cbn.
  intros [Hk' Hnd]%NoDup_cons. destruct (negb _); cbn; [|by apply IH].
  apply NoDup_cons. split; [|by apply IH].
  intros (e & Heq & Hin)%list_elem_of_fmap. apply Hk'.
  apply list_elem_of_fmap. exists e. split; [done|].
  apply list_elem_of_In in Hin. apply List.filter_In in Hin as [Hin _].
  by apply list_elem_of_In.
Qed.

Lemma deleteAll_keys_NoDup {V} (ids : list Z) (m : list (Z * V)) :
  NoDup m.*1 -> NoDup (foldl (fun m k => JsMap.delete k m) m ids).*1.
Proof.
  revert m. induction ids as [|k rest IH]; intros m Hm; [done|].
  cbn. by apply IH, delete_keys_NoDup.
Qed.

Lemma statusesOk_alter status l (h : list OrderData.t) :
  knownStatus status ->
  Forall (fun o => knownStatus (OrderData.status o)) h ->
  Forall (fun o => knownStatus (OrderData.status o))
    (alter (OrderData.set_status status) l h).
Proof.
  intros Hs Hh. revert l. induction Hh as [|o rest Ho Hrest IH]; intros l; [done|].
  destruct l as [|l]; cbn; constructor; try done; apply IH.
Qed.

Lemma keptOf_statuses contract ids :
  Forall (fun o => knownStatus (OrderData.status o)) (objectsOf (keptOf contract ids)).
Proof.
  induction ids as [|i rest IH]; [constructor|].
  rewrite keptOf_cons. unfold keep.
  destruct (orders contract i) as [e|o]; [exact IH|].
  destruct (isOpen o) eqn:Hopen; [|exact IH].
  rewrite objectsOf_cons. constructor; [|exact IH].
  apply isOpen_spec in Hopen as [_ Hs]. cbn. rewrite Hs. by left.
Qed.

(** X14. Three invariants hold from construction on and are kept by every
    operation that changes the cache (the three event handlers,
    [updateOrderCache] with an existing order object, [removeOrder],
    [removeOrders], a full resync): every cached reference points to an
    order object, no id has two entries, and every order object carries
    status "Active", "Filled" or "Canceled". *)
Theorem cache_invariants_kept (m : Mutation) (w : World) :
  wf w -> uniqueIds w -> statusesOk w ->
  (forall k l, m = MUpdate k l -> l < length (heap w)) ->
  wf (worldAfter (mutate m) w)
  /\ uniqueIds (worldAfter (mutate m) w)
  /\ statusesOk (worldAfter (mutate m) w).
Proof.
  intros Hwf Huniq Hst Hupdate.
  split; [by apply mutate_wf|].
  unfold uniqueIds, statusesOk, worldAfter in *.
  destruct m as [[k maker taker sellToken sellAmount buyToken buyAmount timestamp fee|k|k]
                |k l|k|[|ids]|[c|]];
    cbn [mutate handle].
  - destruct (onOrderCreated_run k maker taker sellToken sellAmount buyToken
                buyAmount timestamp fee w) as (t & -> & _).
    unfold upserted, cache in *. cbn [fst snd this heap orderCache set_orderCache].
    split; [by apply set_keys_NoDup|].
    apply Forall_app. split; [done|]. constructor; [by left|constructor].
  - destruct (JsMap.get k (cache w)) as [l|] eqn:E.
    + rewrite (onOrderFilled_present _ _ _ E). cbn [fst snd transitioned heap].
      split; [done|]. apply statusesOk_alter; [right; by left|done].
    + by rewrite (onOrderFilled_absent _ _ E).
  - destruct (JsMap.get k (cache w)) as [l|] eqn:E.
    + rewrite (onOrderCanceled_present _ _ _ E). cbn [fst snd transitioned heap].
      split; [done|]. apply statusesOk_alter; [right; by right|done].
    + by rewrite (onOrderCanceled_absent _ _ E).
  - unfold cache in *. cbn. split; [by apply set_keys_NoDup|done].
  - unfold cache in *. cbn. split; [by apply delete_keys_NoDup|done].
  - done.
  - rewrite removeOrders_run. unfold cache in *. cbn.
    split; [by apply deleteAll_keys_NoDup|done].
  - destruct (syncAllOrders_Some c w) as (t & -> & _). cbn [fst snd].
    split; [apply rebuilt_keys_NoDup|].
    unfold rebuilt. cbn [heap]. apply Forall_app. split; [done|].
    apply keptOf_statuses.
  - rewrite syncAllOrders_None. cbn. split; [constructor|done].
Qed.

(** *** The status filters *)

Lemma filter_partition3 {A} (p1 p2 p3 : A -> bool) (l : list A) :
  Forall (fun x => (p1 x = true /\ p2 x = false /\ p3 x = false)
                   \/ (p1 x = false /\ p2 x = true /\ p3 x = false)
                   \/ (p1 x = false /\ p2 x = false /\ p3 x = true)) l ->
  Permutation l (List.filter p1 l ++ List.filter p2 l ++ List.filter p3 l).
Proof.
  induction 1 as [|x rest Hx Hrest IH]; [constructor|]. cbn.
  destruct Hx as [(-> & -> & ->)|[(-> & -> & ->)|(-> & -> & ->)]]; cbn.
  - by constructor.
  - etrans; [|apply Permutation_middle]. by constructor.
  - rewrite app_assoc. etrans; [|apply Permutation_middle].
    rewrite <- app_assoc. by constructor.
Qed.

(** X15. With every cached reference valid and every status one of the
    three names, the three status filters partition the cache: the records of
    [getOrders()] are, up to order, those of [getOrders('Active')],
    [getOrders('Filled')] and [getOrders('Canceled')] together; and an empty
    string as filter is treated as no filter. *)
Theorem status_filters_partition (w : World) :
  wf w -> statusesOk w ->
  exists all active filled canceled,
    completionOf (getOrders None) w = Normal all
    /\ completionOf (getOrders (Some "Active")) w = Normal active
    /\ completionOf (getOrders (Some "Filled")) w = Normal filled
    /\ completionOf (getOrders (Some "Canceled")) w = Normal canceled
    /\ Permutation all (active ++ filled ++ canceled)
    /\ completionOf (getOrders (Some "")) w = Normal all.
Proof.
  intros Hwf Hst. unfold completionOf. rewrite !getOrders_run. cbn [fst snd truthy].
  eexists _, _, _, _. split_and!; try reflexivity.
  apply filter_partition3.
  apply values_wf in Hwf. eapply Forall_impl; [exact Hwf|].
  intros l Hl. cbn in Hl. unfold status_at.
  destruct (heap w !! l) as [o|] eqn:E; [|apply lookup_ge_None in E; lia].
  assert (knownStatus (OrderData.status o)) as Ho.
  { apply (proj1 (Forall_forall _ _) Hst o). apply list_elem_of_lookup. by exists l. }
  destruct Ho as [Hs|[Hs|Hs]]; cbn [fmap option_fmap option_map]; rewrite Hs;
    [left | right; left | right; right];
    split_and!; first [by apply bool_decide_eq_true_2 | by apply bool_decide_eq_false_2].
Qed.

(** *** Contract state check *)

(** X16. [checkContractState] never throws and changes no state.  It returns
    [true] exactly when the account request and the code request both
    succeed for a given contract, whatever the code is: it also returns
    [true] when the address holds no code ("0x"), which it only logs. *)
Theorem checkContractState_ignores_code (host : Host) (contract : option Contract)
    (w : World) :
  exists b t,
    checkContractState host contract w = (Normal b, w, t)
    /\ (b = true <->
        exists accounts c code,
          eth_accounts host = inr accounts
          /\ contract = Some c
          /\ getCode host (address c) = inr code).
Proof.
  unfold checkContractState. unfold_M. cbn.
  destruct (eth_accounts host) as [e|accounts] eqn:Ha; cbn.
  { eexists _, _. split; [reflexivity|]. split; [done|]. by intros (? & ? & ? & ? & _). }
  destruct contract as [c|]; cbn.
  - destruct (getCode host (address c)) as [e|code] eqn:Hc; cbn.
    + eexists _, _. split; [reflexivity|]. split; [done|].
      intros (? & c' & ? & _ & [= <-] & Hc'). by rewrite Hc in Hc'.
    + eexists _, _. split; [reflexivity|]. split; [|done].
      intros _. by exists accounts, c, code.
  - eexists _, _. split; [reflexivity|]. split; [done|].
    by intros (? & ? & ? & _ & ? & _).
Qed.

(** *** A first successful connection *)

(** X17. An [initialize] on a service that is not yet initialized, whose
    first connection attempt succeeds, returns [true] without any timer and
    leaves the service initialized with the new provider, the counter at 0
    and the subscribers unchanged.  The cache then holds exactly the ledger's
    open orders (below the bound, fetched, non-zero maker, status 0), each as
    an object with the id, the fetched record's maker, taker, tokens,
    amounts, timestamp, fee and tries, and status "Active"; the objects that
    existed before are untouched; and the only publication is one
    "orderSyncComplete" with the snapshot of that cache. *)
Theorem initialize_connects (envs : nat -> Env) (w : World)
    (config : NetworkConfig) (p : Provider) (contract : Contract) :
  isInitialized (this w) = false ->
  connect (envs O) = inr (config, p, contract) ->
  exists w' t,
    initialize envs w = (Normal true, w', t)
    /\ provider (this w') = Some p
    /\ isInitialized (this w') = true
    /\ reconnectAttempts (this w') = 0%Z
    /\ subscribers (this w') = subscribers (this w)
    /\ (forall i, is_Some (JsMap.get i (cache w')) <-> exists order, keeps contract i order)
    /\ (forall i order, keeps contract i order ->
          recordOf w' i =
          Some {| OrderData.id := i;
                  OrderData.maker := Order.maker order;
                  OrderData.taker := Order.taker order;
                  OrderData.sellToken := Order.sellToken order;
                  OrderData.sellAmount := Order.sellAmount order;
                  OrderData.buyToken := Order.buyToken order;
                  OrderData.buyAmount := Order.buyAmount order;
                  OrderData.timestamp := Order.timestamp order;
                  OrderData.orderCreationFee := Order.orderCreationFee order;
                  OrderData.status := "Active";
                  OrderData.tries := Some (Order.tries order) |})
    /\ (forall l o, heap w !! l = Some o -> heap w' !! l = Some o)
    /\ notifications t = [Notify "orderSyncComplete" (snapshot w')]
    /\ timeouts t = [].
Proof.
  intros Hinit Hconn.
  pose proof (initialize_body_run (envs O) w Hinit) as Hrun.
  rewrite Hconn in Hrun. destruct Hrun as (t & Hrun & Hn & Ht).
  unfold initialize. cbn [initialize_fuel]. unfold try_catch. rewrite Hrun.
  eexists _, _. split; [reflexivity|].
  set (w0 := with_this (set_provider (Some p)) w) in *.
  assert (forall i, JsMap.get i (cache (initialized p contract w))
                    = JsMap.get i (cache (rebuilt contract w0))) as Hcache
    by reflexivity.
  assert (forall i, recordOf (initialized p contract w) i
                    = recordOf (rebuilt contract w0) i) as Hrec by reflexivity.
  split_and!; try reflexivity.
  - intros i. rewrite Hcache, get_rebuilt_is_Some. unfold is_Some.
    by setoid_rewrite get_fetched_Some.
  - intros i order Hk. rewrite Hrec. by apply recordOf_rebuilt_open.
  - intros l o Hl. cbn. by apply lookup_app_l_Some.
  - exact Hn.
  - exact Ht.
Qed.

(** *** Recovery after failed attempts *)

Lemma initialize_fuel_recovers k config p contract :
  forall fuel envs w,
    attemptsLeft w < fuel ->
    (forall j, j < k -> exists e, connect (envs j) = inl e) ->
    connect (envs k) = inr (config, p, contract) ->
    isInitialized (this w) = false ->
    (0 <= reconnectAttempts (this w))%Z ->
    (reconnectAttempts (this w) + Z.of_nat k <= maxReconnectAttempts (this w))%Z ->
    exists w' t,
      initialize_fuel fuel envs w = (Normal true, w', t)
      /\ timeouts t =
         backoffSchedule (reconnectDelay (this w)) (reconnectAttempts (this w))
           (reconnectAttempts (this w) + Z.of_nat k)
      /\ reconnectAttempts (this w') = 0%Z
      /\ isInitialized (this w') = true
      /\ cache w' = entriesFrom (length (heap w)) (fetched contract)
      /\ heap w' = heap w ++ objectsOf (fetched contract)
      /\ notifications t = [Notify "orderSyncComplete" (snapshot w')].
Proof.
  induction k as [|k IH]; intros fuel envs w Hfuel Hfail Hok Hinit Hpos Hroom;
    (destruct fuel as [|fuel]; [lia|]);
    cbn [initialize_fuel]; unfold try_catch;
    pose proof (initialize_body_run (envs O) w Hinit) as Hrun.
  - rewrite Hok in Hrun. destruct Hrun as (t & -> & Hn & Ht).
    eexists _, _. split; [reflexivity|]. rewrite Ht.
    split_and!; try reflexivity; [|exact Hn].
    by rewrite backoffSchedule_nil by lia.
  - destruct (Hfail O) as [e He]; [lia|]. rewrite He in Hrun.
    destruct Hrun as (w1 & t1 & -> & Hframe & Hheap & Hn1 & _ & Ht1).
    apply set_provider_None_fields in Hframe as (Ha & Hm & Hd & Hi & _).
    rewrite bind_eq. cbn [debug emit].
    assert (reconnectAttempts (this w1) < maxReconnectAttempts (this w1))%Z as Hlt
      by lia.
    rewrite reconnect_with_retry by done.
    pose proof (attemptsLeft_bumped w1 Hlt) as Hleft.
    assert (attemptsLeft w1 = attemptsLeft w) as Hsame
      by (unfold attemptsLeft; by rewrite Ha, Hm).
    destruct (IH fuel (fun j => envs (S j)) (bumped w1))
      as (w' & t & -> & Ht & Hzero & Hready & Hcache & Hheap' & Hn).
    + lia.
    + intros j Hj. apply (Hfail (S j)). lia.
    + exact Hok.
    + cbn. congruence.
    + cbn. lia.
    + cbn. lia.
    + eexists _, _. split; [reflexivity|]. split_and!; try done.
      * simpl_trace. rewrite Ht1, Ht. cbn.
        rewrite (backoffSchedule_cons _ (reconnectAttempts (this w))) by lia.
        unfold backoffDelay, Math_pow. cbn. rewrite Ha, Hd, Z.add_simpl_r.
        do 2 f_equal. lia.
      * rewrite Hcache. cbn. by rewrite Hheap.
      * rewrite Hheap'. cbn. by rewrite Hheap.
      * simpl_trace. by rewrite Hn1, Hn.
Qed.

(** X18. Recovery: when the first [k] connection attempts fail and the next
    one succeeds, with room for [k] more attempts below the maximum, an
    [initialize] that starts uninitialized with the counter at [a >= 0]
    returns [true] after waiting exactly [delay * 2^a, ..., delay * 2^(a+k-1)];
    the counter is back at 0 and the service is initialized.  The cache then
    holds exactly the ledger's open orders, each as an object with the id,
    the fetched record's maker, taker, tokens, amounts, timestamp, fee and
    tries, and status "Active"; the order objects that existed before the
    call are untouched; and the only publication of the whole chain is the
    one "orderSyncComplete". *)
Theorem initialize_recovers (envs : nat -> Env) (w : World) (k : nat)
    (config : NetworkConfig) (p : Provider) (contract : Contract) :
  (forall j, j < k -> exists e, connect (envs j) = inl e) ->
  connect (envs k) = inr (config, p, contract) ->
  isInitialized (this w) = false ->
  (0 <= reconnectAttempts (this w))%Z ->
  (reconnectAttempts (this w) + Z.of_nat k <= maxReconnectAttempts (this w))%Z ->
  exists w' t,
    initialize envs w = (Normal true, w', t)
    /\ timeouts t =
       backoffSchedule (reconnectDelay (this w)) (reconnectAttempts (this w))
         (reconnectAttempts (this w) + Z.of_nat k)
    /\ reconnectAttempts (this w') = 0%Z
    /\ isInitialized (this w') = true
    /\ (forall i, is_Some (JsMap.get i (cache w')) <-> exists order, keeps contract i order)
    /\ (forall i order, keeps contract i order ->
          recordOf w' i =
          Some {| OrderData.id := i;
                  OrderData.maker := Order.maker order;
                  OrderData.taker := Order.taker order;
                  OrderData.sellToken := Order.sellToken order;
                  OrderData.sellAmount := Order.sellAmount order;
                  OrderData.buyToken := Order.buyToken order;
                  OrderData.buyAmount := Order.buyAmount order;
                  OrderData.timestamp := Order.timestamp order;
                  OrderData.orderCreationFee := Order.orderCreationFee order;
                  OrderData.status := "Active";
                  OrderData.tries := Some (Order.tries order) |})
    /\ (forall l o, heap w !! l = Some o -> heap w' !! l = Some o)
    /\ notifications t = [Notify "orderSyncComplete" (snapshot w')].
Proof.
  intros Hfail Hok Hinit Hpos Hroom.
  destruct (initialize_fuel_recovers k config p contract (S (attemptsLeft w)) envs w)
    as (w' & t & Hrun & Ht & Hzero & Hready & Hcache & Hheap & Hn);
    [lia|done..|].
  exists w', t.
  assert (forall i, JsMap.get i (cache w') = JsMap.get i (cache (rebuilt contract w)))
    as Hget by (intros i; by rewrite Hcache).
  assert (forall i, recordOf w' i = recordOf (rebuilt contract w) i) as Hrec.
  { intros i. unfold recordOf. by rewrite Hget, Hheap. }
  split_and!; try done.
  - intros i. rewrite Hget, get_rebuilt_is_Some. unfold is_Some.
    by setoid_rewrite get_fetched_Some.
  - intros i order Hk. rewrite Hrec. by apply recordOf_rebuilt_open.
  - intros l o Hl. rewrite Hheap. by apply lookup_app_l_Some.
Qed.

(** *** Manual cache updates *)

Lemma get_Some_pair {V} (k : Z) (v : V) (m : list (Z * V)) :
  JsMap.get k m = Some v -> (k, v) ∈ m.
Proof.
  induction m as [|[k' v'] rest IH]; [done|]. cbn.
  case_bool_decide as Hk.
  - intros [= ->]. subst. apply list_elem_of_here.
  - intros Hget. apply list_elem_of_further. by apply IH.
Qed.

Lemma delete_set_absent {V} (k : Z) (v : V) (m : list (Z * V)) :
  JsMap.get k m = None -> JsMap.delete k (JsMap.set k v m) = m.
Proof.
  intros Hnone. rewrite set_absent by done. unfold JsMap.delete.
  rewrite List.filter_app. cbn. rewrite bool_decide_eq_true_2 by done. cbn.
  rewrite app_nil_r. by apply delete_absent.
Qed.

(** X19. [updateOrderCache] followed by a lookup and by [removeOrder]:
    after [updateOrderCache(id, o)] the cache maps [id] to the object [o]
    and [getOrders()] lists it, with the entries of all other ids as before;
    a following [removeOrder(id)] makes [id] absent and leaves the other
    entries as they were; and when [id] was not cached before, the pair
    restores the state exactly.  Neither touches an order object or
    publishes anything. *)
Theorem update_then_remove (orderId : Z) (orderData : nat) (w : World) :
  let w1 := worldAfter (updateOrderCache orderId orderData) w in
  let w2 := worldAfter (removeOrder orderId) w1 in
  JsMap.get orderId (cache w1) = Some orderData
  /\ orderData ∈ JsMap.values (cache w1)
  /\ (forall k, k ≠ orderId ->
        JsMap.get k (cache w1) = JsMap.get k (cache w)
        /\ JsMap.get k (cache w2) = JsMap.get k (cache w))
  /\ JsMap.get orderId (cache w2) = None
  /\ (JsMap.get orderId (cache w) = None -> w2 = w)
  /\ heap w2 = heap w
  /\ traceOf (updateOrderCache orderId orderData) w = []
  /\ traceOf (removeOrder orderId) w1 = [].
Proof.
  cbn zeta. unfold worldAfter, traceOf, cache.
  cbn [fst snd updateOrderCache removeOrder cache_set cache_delete modify with_this
       this heap orderCache set_orderCache].
  split_and!; try reflexivity.
  - apply get_set_eq.
  - unfold JsMap.values. apply list_elem_of_fmap. exists (orderId, orderData).
    split; [done|]. apply (get_Some_pair _ _ _ (get_set_eq _ _ _)).
  - intros k Hne. split.
    + by apply get_set_ne.
    + rewrite get_delete_ne by done. by apply get_set_ne.
  - apply get_delete_eq.
  - intros Hnone. unfold with_this. cbn [this heap].
    rewrite orderCache_set, set_orderCache_twice.
    rewrite delete_set_absent by done.
    by rewrite set_orderCache_same, world_eta.
Qed.

(** *** The further properties at concrete inputs *)

Lemma registry_stays_a_set_witness :
  registryOk world0
  /\ registryOk (worldAfter (subscribe "OrderFilled" thrower) world0)
  /\ registryOk (worldAfter (unsubscribe "OrderFilled" thrower) world0).
Proof.
  assert (registryOk world0) as H0.
  { intros name cbs H. cbn in H. rewrite lookup_empty in H. discriminate H. }
  split; [exact H0|].
  destruct (registry_stays_a_set "OrderFilled" thrower world0 H0) as (H1 & H2 & _).
  split; [exact H1 | exact H2].
Defined.

Lemma eligibility_threshold_witness :
  exists r,
    completionOf (checkCleanupEligibility envUp 0) configuredWorld = Normal r
    /\ order r = Some openOrder
    /\ (isEligible r = true <->
        (1702000000123 >= 1000 * (1700000000 + 1209601))%Z).
Proof.
  apply (eligibility_threshold envUp 0 configuredWorld scenarioContract openOrder);
    reflexivity.
Defined.

Lemma initialize_backoff_schedule_witness :
  allDown (fun _ => envDown)
  /\ exists w' t,
       initialize (fun _ => envDown) world0 = (Normal false, w', t)
       /\ timeouts t =
          [SetTimeout 1000; SetTimeout 2000; SetTimeout 4000; SetTimeout 8000;
           SetTimeout 16000]
       /\ reconnectAttempts (this w') = 5%Z.
Proof.
  assert (allDown (fun _ => envDown)) as Hdown.
  { intros k. exists "connection refused". reflexivity. }
  split; [exact Hdown|].
  destruct (initialize_backoff_schedule (fun _ => envDown) world0 Hdown)
    as (w' & t & Hrun & Ht & Hfinal); [reflexivity | cbn; lia |].
  exists w', t. split; [exact Hrun|]. split; [|exact Hfinal].
  rewrite Ht. reflexivity.
Defined.

Lemma disconnect_when_ready_witness :
  isInitialized (this readyWorld) = true
  /\ exists w' t,
       onDisconnect (fun _ => envUp) "socket closed" readyWorld = (Normal tt, w', t)
       /\ cache w' = cache readyWorld
       /\ notifications t = []
       /\ reconnectAttempts (this w') = 1%Z
       /\ timeouts t = [SetTimeout 1000].
Proof.
  assert (isInitialized (this readyWorld) = true) as H by (vm_compute; reflexivity).
  assert (0 <= reconnectAttempts (this readyWorld))%Z as Hpos
    by (vm_compute; discriminate).
  split; [exact H|].
  destruct (disconnect_when_ready (fun _ => envUp) "socket closed" readyWorld H Hpos)
    as (w' & t & Hrun & _ & Hc & _ & Hn & _ & Hbelow & _).
  assert (reconnectAttempts (this readyWorld) < maxReconnectAttempts (this readyWorld))%Z
    as Hlt by (vm_compute; reflexivity).
  destruct (Hbelow Hlt) as [Ha Ht].
  exists w', t. split; [exact Hrun|]. split; [exact Hc|]. split; [exact Hn|].
  split; [rewrite Ha | rewrite Ht]; vm_compute; reflexivity.
Defined.

Lemma setupEventListeners_swallows_witness :
  completionOf (initialize (fun _ => envBroken)) world0 = Normal true
  /\ isInitialized (this (worldAfter (initialize (fun _ => envBroken)) world0)) = true
  /\ listens (traceOf (initialize (fun _ => envBroken)) world0) =
     [Listen "provider" "connect"; Listen "provider" "disconnect"].
Proof.
  apply (proj2 (setupEventListeners_swallows (fun _ => envBroken) world0 testConfig
                  (WebSocketProvider "wss://node") brokenContract));
    reflexivity.
Defined.

Lemma forwardEvent_not_isolated_witness :
  forwardEvent "OrderFilled" (POrder 0) twoSubscribers =
  (Throw "render failed", twoSubscribers, [Call 1 (POrder 0)]).
Proof.
  destruct (forwardEvent_not_isolated "OrderFilled" (POrder 0) twoSubscribers)
    as (_ & _ & _ & Hthrow).
  apply (Hthrow [] thrower [listener] "render failed"); [reflexivity| |reflexivity].
  constructor.
Defined.

Lemma cache_invariants_kept_witness :
  wf world0 /\ uniqueIds world0 /\ statusesOk world0
  /\ wf activeWorld /\ uniqueIds activeWorld /\ statusesOk activeWorld.
Proof.
  assert (wf world0) as H1 by constructor.
  assert (uniqueIds world0) as H2 by constructor.
  assert (statusesOk world0) as H3 by constructor.
  split; [exact H1|]. split; [exact H2|]. split; [exact H3|].
  apply (cache_invariants_kept (MEvent created5) world0 H1 H2 H3).
  intros k l Heq. discriminate Heq.
Defined.

Lemma status_filters_partition_witness :
  wf filledWorld /\ statusesOk filledWorld
  /\ exists all active filled canceled,
       completionOf (getOrders None) filledWorld = Normal all
       /\ completionOf (getOrders (Some "Active")) filledWorld = Normal active
       /\ completionOf (getOrders (Some "Filled")) filledWorld = Normal filled
       /\ completionOf (getOrders (Some "Canceled")) filledWorld = Normal canceled
       /\ Permutation all (active ++ filled ++ canceled)
       /\ completionOf (getOrders (Some "")) filledWorld = Normal all.
Proof.
  assert (wf filledWorld) as H1 by (repeat constructor).
  assert (statusesOk filledWorld) as H2.
  { constructor; [right; left; reflexivity | constructor]. }
  split; [exact H1|]. split; [exact H2|].
  exact (status_filters_partition filledWorld H1 H2).
Defined.

Lemma initialize_connects_witness :
  exists w' t,
    initialize (fun _ => envUp) world0 = (Normal true, w', t)
    /\ reconnectAttempts (this w') = 0%Z
    /\ recordOf w' 0 =
       Some {| OrderData.id := 0;
               OrderData.maker := alice;
               OrderData.taker := AddressZero;
               OrderData.sellToken := tokenA;
               OrderData.sellAmount := 10;
               OrderData.buyToken := tokenB;
               OrderData.buyAmount := 20;
               OrderData.timestamp := 1700000000;
               OrderData.orderCreationFee := 1;
               OrderData.status := "Active";
               OrderData.tries := Some 0%Z |}
    /\ timeouts t = [].
Proof.
  destruct (initialize_connects (fun _ => envUp) world0 testConfig
              (WebSocketProvider "wss://node") scenarioContract)
    as (w' & t & Hrun & _ & _ & Hzero & _ & _ & Hrec & _ & _ & Ht); [reflexivity..|].
  exists w', t. split; [exact Hrun|]. split; [exact Hzero|]. split; [|exact Ht].
  apply (Hrec 0%Z openOrder). unfold keeps. cbn. split_and!; [lia|lia|reflexivity|discriminate|reflexivity].
Defined.

Lemma initialize_recovers_witness :
  exists w' t,
    initialize downThenUp retryingWorld = (Normal true, w', t)
    /\ timeouts t = [SetTimeout 4000]
    /\ reconnectAttempts (this w') = 0%Z
    /\ isInitialized (this w') = true
    /\ recordOf w' 0 =
       Some {| OrderData.id := 0;
               OrderData.maker := alice;
               OrderData.taker := AddressZero;
               OrderData.sellToken := tokenA;
               OrderData.sellAmount := 10;
               OrderData.buyToken := tokenB;
               OrderData.buyAmount := 20;
               OrderData.timestamp := 1700000000;
               OrderData.orderCreationFee := 1;
               OrderData.status := "Active";
               OrderData.tries := Some 0%Z |}.
Proof.
  destruct (initialize_recovers downThenUp retryingWorld 1 testConfig
              (WebSocketProvider "wss://node") scenarioContract)
    as (w' & t & Hrun & Ht & Hzero & Hready & _ & Hrec & _).
  - intros j Hj. destruct j as [|j]; [|lia]. exists "connection refused". reflexivity.
  - reflexivity.
  - reflexivity.
  - cbn. lia.
  - cbn. lia.
  - exists w', t. split; [exact Hrun|]. split; [rewrite Ht; reflexivity|].
    split; [exact Hzero|]. split; [exact Hready|].
    apply (Hrec 0%Z openOrder). unfold keeps. cbn.
    split_and!; [lia|lia|reflexivity|discriminate|reflexivity].
Defined.

(** The state check answers [true] for an address without code. *)
Example checkContractState_without_code :
  completionOf (checkContractState emptyHost (Some scenarioContract)) world0
  = Normal true.
Proof. reflexivity. Qed.
